(** * Expense tracker: a shallow embedding of [expense-tracker.js]

    The script keeps one module-level array [expenses] and prints every
    outcome on the console.  The embedding threads the array explicitly
    (each operation takes the ledger and returns the new ledger) and
    returns the console lines an operation prints.

    JavaScript numbers are IEEE 754 binary64 values; they are modelled by
    the primitive [float] type, whose operations are the binary64 ones.
    Integer-valued numbers that are derived from an array length (record
    ids, per-category counts) never leave the exactly representable range
    and are kept as [nat]; they are converted with [Number_of_nat] where
    the script mixes them with other numbers. *)

From Stdlib Require Import List String Ascii Bool Arith ZArith Lia.
From Stdlib Require Import Uint63 Floats.
Import ListNotations.

Local Open Scope string_scope.
Local Open Scope list_scope.

(** ** The fragment of JavaScript the script relies on *)

Module JS.

(** Primitive values an argument of the script's functions can hold.
    Objects, symbols and bigints are outside the model. *)
Inductive value : Type :=
| VUndefined
| VNull
| VBool (b : bool)
| VNumber (x : float)
| VString (s : string).

(** The [typeof] operator. *)
Definition typeof (v : value) : string :=
  match v with
  | VUndefined => "undefined"
  | VNull => "object"
  | VBool _ => "boolean"
  | VNumber _ => "number"
  | VString _ => "string"
  end.

(** An array length, or a number computed from one, as a Number. *)
Definition Number_of_nat (n : nat) : float :=
  PrimFloat.of_uint63 (Uint63.of_Z (Z.of_nat n)).

(** *** StringToNumber (ECMA-262, 7.1.4.1.1), on strings of 8-bit code units *)

Definition isStrWhiteSpaceChar (c : ascii) : bool :=
  let n := nat_of_ascii c in
  existsb (Nat.eqb n) [9; 10; 11; 12; 13; 32; 160]%nat.

Fixpoint dropWhile {A : Type} (p : A -> bool) (l : list A) : list A :=
  match l with
  | [] => []
  | x :: r => if p x then dropWhile p r else l
  end.

Definition trimString (cs : list ascii) : list ascii :=
  rev (dropWhile isStrWhiteSpaceChar (rev (dropWhile isStrWhiteSpaceChar cs))).

(** Value of a digit in the given radix, [None] when [c] is no such digit. *)
Definition digitValue (radix : Z) (c : ascii) : option Z :=
  (let n := Z.of_nat (nat_of_ascii c) in
   let d :=
     if (48 <=? n) && (n <=? 57) then Some (n - 48)
     else if (97 <=? n) && (n <=? 102) then Some (n - 87)
     else if (65 <=? n) && (n <=? 70) then Some (n - 55)
     else None in
   match d with
   | Some k => if k <? radix then Some k else None
   | None => None
   end)%Z.

(** Longest prefix of digits: its value, its length and the rest. *)
Fixpoint scanDigits (radix : Z) (cs : list ascii) (acc : Z) (len : Z)
  : Z * Z * list ascii :=
  match cs with
  | [] => (acc, len, [])
  | c :: r =>
      match digitValue radix c with
      | Some k => scanDigits radix r (acc * radix + k)%Z (len + 1)%Z
      | None => (acc, len, cs)
      end
  end.

(** The binary64 value nearest to [m * 10^e10] (ties to even), signed. *)
Definition roundDecimal (neg : bool) (m e10 : Z) : float :=
  if (m =? 0)%Z then (if neg then neg_zero else zero)
  else if (0 <=? e10)%Z then
    SF2Prim (binary_normalize prec emax
               (if neg then - (m * 10 ^ e10) else m * 10 ^ e10)%Z 0%Z false)
  else
    let '(q, e, l) := SFdiv_core_binary prec emax m 0%Z (10 ^ (- e10))%Z 0%Z in
    SF2Prim (binary_round_aux prec emax neg q e l).

Definition parseSign (cs : list ascii) : bool * list ascii :=
  match cs with
  | "+"%char :: r => (false, r)
  | "-"%char :: r => (true, r)
  | _ => (false, cs)
  end.

(** ExponentPart, when present and well formed; [Some 0] when absent. *)
Definition parseExponent (cs : list ascii) : option Z :=
  match cs with
  | [] => Some 0%Z
  | c :: r =>
      if (Ascii.eqb c "e" || Ascii.eqb c "E")%bool then
        let '(neg, r') := parseSign r in
        match scanDigits 10 r' 0%Z 0%Z with
        | (v, len, []) =>
            if (0 <? len)%Z then Some (if neg then - v else v)%Z else None
        | _ => None
        end
      else None
  end.

(** StrUnsignedDecimalLiteral, [Infinity] apart. *)
Definition parseUnsignedDecimal (neg : bool) (cs : list ascii) : option float :=
  let '(ip, ilen, r1) := scanDigits 10 cs 0%Z 0%Z in
  let '(fp, flen, r2) :=
    match r1 with
    | "."%char :: r => scanDigits 10 r ip 0%Z
    | _ => (ip, 0%Z, r1)
    end in
  if (0 <? ilen + flen)%Z then
    match parseExponent r2 with
    | Some ex => Some (roundDecimal neg fp (ex - flen)%Z)
    | None => None
    end
  else None.

Definition parseNonDecimal (cs : list ascii) : option float :=
  match cs with
  | "0"%char :: p :: r =>
      let radix :=
        if (Ascii.eqb p "x" || Ascii.eqb p "X")%bool then Some 16%Z
        else if (Ascii.eqb p "o" || Ascii.eqb p "O")%bool then Some 8%Z
        else if (Ascii.eqb p "b" || Ascii.eqb p "B")%bool then Some 2%Z
        else None in
      match radix with
      | Some b =>
          match scanDigits b r 0%Z 0%Z with
          | (v, len, []) =>
              if (0 <? len)%Z then Some (roundDecimal false v 0%Z) else None
          | _ => None
          end
      | None => None
      end
  | _ => None
  end.

Definition StringToNumber (s : string) : float :=
  match trimString (list_ascii_of_string s) with
  | [] => zero
  | cs =>
      match parseNonDecimal cs with
      | Some x => x
      | None =>
          let '(neg, r) := parseSign cs in
          if String.eqb (string_of_list_ascii r) "Infinity"
          then (if neg then neg_infinity else infinity)
          else match parseUnsignedDecimal neg r with
               | Some x => x
               | None => nan
               end
      end
  end.

(** ToNumber on primitive values. *)
Definition ToNumber (v : value) : float :=
  match v with
  | VUndefined => nan
  | VNull => zero
  | VBool b => if b then one else zero
  | VNumber x => x
  | VString s => StringToNumber s
  end.

(** [v <= x] for a Number [x]: the operands are not both strings, so both
    are converted to numbers and compared; a NaN operand gives [false]. *)
Definition le_number (v : value) (x : float) : bool :=
  PrimFloat.leb (ToNumber v) x.

(** [x === y] on two Numbers. *)
Definition strictEq_number (x y : float) : bool := PrimFloat.eqb x y.

End JS.

Import JS.

(** ** The console *)

Inductive level : Type := LOG | WARN | ERROR.

(** A printed line is kept as the pieces of its template literal: the
    rendering of a number as text is left to the host. *)
Inductive piece : Type :=
| Txt (s : string)            (* literal text, or an interpolated string *)
| Num (x : float)             (* [${x}] for a Number *)
| Int (n : nat)               (* [${n}] for an integer-valued Number *)
| Fixed2 (x : float).         (* [x.toFixed(2)] *)

Record line : Type := Line { lvl : level; text : list piece }.

Definition console_log (t : list piece) : line := Line LOG t.
Definition console_warn (t : list piece) : line := Line WARN t.
Definition console_error (t : list piece) : line := Line ERROR t.

(** ** Store and constants (lines 3-15) *)

Module Expense.
Record t : Type := mk {
  id : nat;
  amount : float;
  category : string;
  description : string;
  date : Z                     (* [new Date()], milliseconds since the epoch *)
}.
End Expense.

Definition categories : list string :=
  [ "food"; "transport"; "entertainment"; "utilities"; "healthcare";
    "shopping"; "other" ].

(** [categories.includes(v)] *)
Definition categories_includes (v : value) : bool :=
  match v with
  | VString s => existsb (String.eqb s) categories
  | _ => false
  end.

(** [categories.join(", ")] *)
Definition categories_joined : string := String.concat ", " categories.

(** ** Utility functions (lines 46-70) *)

Definition msg_amount_positive : line :=
  console_warn [Txt "Amount must be greater than 0"].
Definition msg_amount_number : line :=
  console_error [Txt "Amount must be a number"].
Definition msg_category : line :=
  console_error [Txt ("Category must be one of " ++ categories_joined)%string].
Definition msg_description : line :=
  console_error [Txt "Description must be a string"].

(** [checkValidity]: the verdict and what it prints. *)
Definition checkValidity (amount category description : value)
  : bool * list line :=
  if le_number amount zero then
    (false, [msg_amount_positive])
  else if negb (String.eqb (typeof amount) "number") then
    (false, [msg_amount_number])
  else if negb (categories_includes category) then
    (false, [msg_category])
  else if negb (String.eqb (typeof description) "string") then
    (false, [msg_description])
  else (true, []).

(** [formatCurrency] *)
Definition formatCurrency (amount : float) : list piece :=
  [Txt "$"; Fixed2 amount].

(** ** Expense functionality *)

(** The Number and the strings held by validated arguments. *)
Definition number_of (v : value) : float :=
  match v with VNumber x => x | _ => nan end.
Definition string_of (v : value) : string :=
  match v with VString s => s | _ => "" end.

(** [addExpense] (lines 85-98); [now] is the clock reading of [new Date()].
    The arguments are stored as they are: once [checkValidity] has
    accepted them, [amount] is a Number and the other two are strings. *)
Definition addExpense (now : Z) (amount category description : value)
    (expenses : list Expense.t) : list Expense.t * list line :=
  let '(isValidated, out) := checkValidity amount category description in
  if isValidated then
    let expense :=
      {| Expense.id := List.length expenses + 1;
         Expense.amount := number_of amount;
         Expense.category := string_of category;
         Expense.description := string_of description;
         Expense.date := now |} in
    (expenses ++ [expense],
     out ++ [console_log [Txt "Expense added successfully. ID: ";
                          Int (Expense.id expense)]])
  else (expenses, out).

(** [arr.findIndex(p)]: the first index whose element satisfies [p]. *)
Fixpoint findIndex {A : Type} (p : A -> bool) (l : list A) : option nat :=
  match l with
  | [] => None
  | x :: r => if p x then Some 0 else option_map S (findIndex p r)
  end.

(** [arr.splice(index, 1)]: the array without the element at [index]. *)
Fixpoint splice1 {A : Type} (index : nat) (l : list A) : list A :=
  match l, index with
  | [], _ => []
  | _ :: r, 0 => r
  | x :: r, S i => x :: splice1 i r
  end.

(** The test [exp.id === id] of [removeExpense]. *)
Definition has_id (x : float) (exp : Expense.t) : bool :=
  strictEq_number (Number_of_nat (Expense.id exp)) x.

(** [removeExpense] (lines 252-265) *)
Definition removeExpense (id : value) (expenses : list Expense.t)
  : list Expense.t * list line :=
  let idType := typeof id in
  if negb (String.eqb idType "number") then
    (expenses, [console_error [Txt "ID must be a number"]])
  else
    let x := number_of id in
    match findIndex (has_id x) expenses with
    | Some index =>
        (splice1 index expenses,
         [console_log [Txt "Expense with ID "; Num x; Txt " removed successfully!"]])
    | None =>
        (expenses,
         [console_log [Txt "Expense with ID "; Num x; Txt " not found."]])
    end.

(** The loop [for (item of expenses) total += item.amount] (lines 183-185). *)
Definition sumAmounts (expenses : list Expense.t) : float :=
  fold_left (fun total item => (total + Expense.amount item)%float) expenses zero.

(** The same loop under the test [item.category === category] (lines 176-180). *)
Definition sumCategory (category : string) (expenses : list Expense.t) : float :=
  fold_left (fun total item =>
               if String.eqb (Expense.category item) category
               then (total + Expense.amount item)%float else total)
            expenses zero.

(** [calculateTotal] (lines 169-188), called with a string or with no
    argument, in which case [category] is the empty string.  The guard is [!expenses.length > 0], which JavaScript reads as
    [(!expenses.length) > 0]: the negation gives a boolean, and that is
    compared with [0] as a number. *)
Definition calculateTotal (category : string) (expenses : list Expense.t)
  : list line :=
  let not_length := Nat.eqb (List.length expenses) 0 in
  if PrimFloat.ltb zero (ToNumber (VBool not_length)) then
    [console_log [Txt "No expenses found. Please add some."]]
  else if Nat.ltb 0 (String.length category) then
    [console_log [Txt ("Total for " ++ category ++ ": ")%string;
                  Num (sumCategory category expenses)]]
  else
    [console_log [Txt "Total: "; Num (sumAmounts expenses)]].

(** An object used as a map from strings to values: its own properties in
    creation order, which is the order [Object.entries] lists them in when
    no key is an array index.  Keys here are validated categories. *)
Module Obj.
Section Properties.
Context {V : Type}.

Definition t : Type := list (string * V).

(** [o[k]], [None] for [undefined] *)
Fixpoint get (o : t) (k : string) : option V :=
  match o with
  | [] => None
  | (k', v) :: r => if String.eqb k' k then Some v else get r k
  end.

(** [o[k] = v]: an existing property keeps its place *)
Fixpoint set (o : t) (k : string) (v : V) : t :=
  match o with
  | [] => [(k, v)]
  | (k', v') :: r =>
      if String.eqb k' k then (k', v) :: r else (k', v') :: set r k v
  end.

(** An update of the object stored under [k], as in [o[k].f += x] *)
Definition update (o : t) (k : string) (f : V -> V) : t :=
  match get o k with
  | Some v => set o k (f v)
  | None => o
  end.

Definition entries (o : t) : list (string * V) := o.
End Properties.
Arguments t : clear implicits.
End Obj.

Record CategoryData : Type := mkData { total : float; count : nat }.

(** The reducer of lines 199-206.  The test [!totals[expense.category]]
    succeeds exactly when the property is missing: an object is truthy. *)
Definition tally (totals : Obj.t CategoryData) (expense : Expense.t)
  : Obj.t CategoryData :=
  let key := Expense.category expense in
  let totals :=
    match Obj.get totals key with
    | None => Obj.set totals key {| total := zero; count := 0 |}
    | Some _ => totals
    end in
  let totals :=
    Obj.update totals key
      (fun d => {| total := (total d + Expense.amount expense)%float;
                   count := count d |}) in
  Obj.update totals key (fun d => {| total := total d; count := count d + 1 |}).

Definition categoryTotals (expenses : list Expense.t) : Obj.t CategoryData :=
  fold_left tally expenses [].

(** [grandTotal] after the loop of lines 216-225. *)
Definition grandTotal (totals : Obj.t CategoryData) : float :=
  fold_left (fun g '(_, data) => (g + total data)%float) (Obj.entries totals) zero.

Record Top : Type := mkTop { top_category : string; top_total : float }.

(** [topCategory] (lines 235-239); [data.total > max.total] is the
    comparison [max.total < data.total]. *)
Definition topCategory (totals : Obj.t CategoryData) : Top :=
  fold_left
    (fun max '(category, data) =>
       if PrimFloat.ltb (top_total max) (total data)
       then {| top_category := category; top_total := total data |}
       else max)
    (Obj.entries totals)
    {| top_category := ""; top_total := zero |}.

Definition newline : string := String (ascii_of_nat 10) EmptyString.

Definition rule : line := console_log [Txt "================================"].

Definition category_line (entry : string * CategoryData) : line :=
  let '(category, data) := entry in
  console_log
    ([Txt category; Txt ": "] ++ formatCurrency (total data)
     ++ [Txt " ("; Int (count data); Txt " expense";
         Txt (if negb (Nat.eqb (count data) 1) then "s" else ""); Txt ")"]).

Definition top_line (top : Top) : line :=
  console_log
    ([Txt "TOP CATEGORY: "; Txt (top_category top); Txt " ("]
     ++ formatCurrency (top_total top) ++ [Txt ")"; Txt newline]).

(** [generateReport] (lines 193-246); [monthYear] is the label computed
    from the wall clock at lines 208-211. *)
Definition generateReport (monthYear : string) (expenses : list Expense.t)
  : list line :=
  if Nat.eqb (List.length expenses) 0 then
    [console_warn [Txt "No expenses to report."]]
  else
    let totals := categoryTotals expenses in
    let g := grandTotal totals in
    [console_log [Txt "EXPENSE REPORT - "; Txt monthYear]; rule]
    ++ map category_line (Obj.entries totals)
    ++ [rule;
        console_log ([Txt "TOTAL: "] ++ formatCurrency g
                     ++ [Txt " ("; Int (List.length expenses); Txt " expenses)"]);
        console_log ([Txt "AVERAGE: "]
                     ++ formatCurrency (g / Number_of_nat (List.length expenses))%float
                     ++ [Txt " per expense"]);
        top_line (topCategory totals)].

(** ** Menu and viewers (lines 24-37 and 103-163) *)

(** [showMenu] *)
Definition showMenu : list line :=
  map (fun s => console_log [Txt s])
    [ "=== EXPENSE TRACKER ===";
      "1. Add Expense";
      "2. View All Expenses";
      "3. View by Category";
      "4. Calculate Total";
      "5. Remove Expense";
      "6. Edit Expense";
      "7. Generate Report";
      "8. Show Categories";
      "9. Exit";
      "Choose option (1-9)";
      "========================" ].

(** The last [k] decimal digits of [n], most significant first. *)
Fixpoint padDigits (k : nat) (n : Z) : string :=
  match k with
  | 0 => ""
  | S k' =>
      (padDigits k' (n / 10)
       ++ String (ascii_of_nat (48 + Z.to_nat (n mod 10))) "")%string
  end.

(** [date.toISOString().split("T")[0]] for a time value [t] a Date can
    hold (milliseconds since the epoch, UTC): the calendar date, with a
    four-digit year from 0 to 9999 and a signed six-digit year otherwise. *)
Definition toISODate (t : Z) : string :=
  (let z := t / 86400000 + 719468 in
   let era := z / 146097 in
   let doe := z - era * 146097 in
   let yoe := (doe - doe / 1460 + doe / 36524 - doe / 146096) / 365 in
   let doy := doe - (365 * yoe + yoe / 4 - yoe / 100) in
   let mp := (5 * doy + 2) / 153 in
   let d := doy - (153 * mp + 2) / 5 + 1 in
   let m := if mp <? 10 then mp + 3 else mp - 9 in
   let y := if m <=? 2 then yoe + era * 400 + 1 else yoe + era * 400 in
   let year :=
     if (0 <=? y) && (y <=? 9999) then padDigits 4 y
     else ((if (y <? 0)%Z then "-" else "+") ++ padDigits 6 (Z.abs y))%string in
   (year ++ "-" ++ padDigits 2 m ++ "-" ++ padDigits 2 d)%string)%Z.

(** The line the three viewers print for one record. *)
Definition expense_line (expense : Expense.t) : line :=
  console_log
    [Txt "ID: "; Int (Expense.id expense); Txt " | ";
     Num (Expense.amount expense); Txt " | ";
     Txt (Expense.category expense); Txt " | ";
     Txt (Expense.description expense); Txt " | ";
     Txt (toISODate (Expense.date expense))].

(** [allExpenses] (lines 103-115) *)
Definition allExpenses (expenses : list Expense.t) : list line :=
  if Nat.ltb 0 (List.length expenses) then
    map expense_line expenses
  else
    [console_log [Txt "No expenses found. Please add some."]].

(** [viewAllExpenses] (lines 120-132) *)
Definition viewAllExpenses (expenses : list Expense.t) : list line :=
  if Nat.ltb 0 (List.length expenses) then
    map expense_line expenses
  else
    [console_log [Txt "No expenses found. Please add some."]].

(** [s === v] for a string [s]. *)
Definition strictEq_string (s : string) (v : value) : bool :=
  match v with
  | VString s' => String.eqb s s'
  | _ => false
  end.

(** [viewByCategory] (lines 138-163).  Past the first test [category] is
    one of the listed strings, which is what the templates interpolate. *)
Definition viewByCategory (category : value) (expenses : list Expense.t)
  : list line :=
  if negb (categories_includes category) then
    [console_warn [Txt ("Category must be one of " ++ categories_joined)%string]]
  else
    let filteredExpenses :=
      filter (fun expense => strictEq_string (Expense.category expense) category)
             expenses in
    if Nat.ltb 0 (List.length filteredExpenses) then
      let totalByCategory :=
        fold_left (fun sum expense => (sum + Expense.amount expense)%float)
                  filteredExpenses zero in
      map expense_line filteredExpenses
      ++ [console_log [Txt " Total for "; Txt (string_of category); Txt ": $ ";
                       Num totalByCategory]]
    else
      [console_log [Txt "No expenses found for category: ";
                    Txt (string_of category)]].

(** A record as the ledger can hold it: an id from 1 on, a listed
    category, and an amount for which [amount <= 0] is false. *)
Definition stored_ok (e : Expense.t) : Prop :=
  1 <= Expense.id e
  /\ In (Expense.category e) categories
  /\ PrimFloat.leb (Expense.amount e) zero = false.

(** ** Sequences of calls *)

Inductive call : Type :=
| CallAdd (now : Z) (amount category description : value)
| CallRemove (id : value).

Definition step (expenses : list Expense.t) (c : call) : list Expense.t :=
  match c with
  | CallAdd now a c d => fst (addExpense now a c d expenses)
  | CallRemove i => fst (removeExpense i expenses)
  end.

(** The ledger after a sequence of calls on the empty array of line 4. *)
Definition run (calls : list call) : list Expense.t := fold_left step calls [].

Definition reachable (expenses : list Expense.t) : Prop :=
  exists calls, run calls = expenses.

(** ** Vocabulary of the specification *)





(** A valid input: a Number above zero, a listed category and a string. *)
Definition valid_input (amount category description : value) : Prop :=
  (exists x, amount = VNumber x /\ PrimFloat.ltb zero x = true)
  /\ categories_includes category = true
  /\ (exists s, description = VString s).

(** A record of the data model: positive amount, listed category. *)
Definition valid_expense (e : Expense.t) : Prop :=
  PrimFloat.ltb zero (Expense.amount e) = true
  /\ In (Expense.category e) categories.

(** Modelled from the spec: [findById] is not a function of the script.
    It is the lookup [removeExpense] performs, the first record whose
    [id] is strictly equal to the given Number. *)
Definition findById (x : float) (expenses : list Expense.t) : option Expense.t :=
  find (has_id x) expenses.

(** The sum of the counts of a grouping's entries. *)
Definition countSum (totals : Obj.t CategoryData) : nat :=
  list_sum (map (fun entry => count (snd entry)) (Obj.entries totals)).

(** The records of one category, in ledger order. *)
Definition ofCategory (category : string) (expenses : list Expense.t)
  : list Expense.t :=
  filter (fun item => String.eqb (Expense.category item) category) expenses.

(** *** Edit *)







(** ** Facts about binary64 arithmetic *)

(** A spec-level float above zero: [+infinity] or a finite positive value. *)
Definition sf_positive (x : spec_float) : bool :=
  match x with
  | S754_infinity false | S754_finite false _ _ => true
  | _ => false
  end.

(** ** Auxiliary readings of the loops *)

(** What the reducer [tally] does to the property of one key. *)
Definition bump (k : string) (d : option CategoryData) (e : Expense.t)
  : option CategoryData :=
  if String.eqb (Expense.category e) k then
    let d0 := match d with
              | Some d0 => d0
              | None => {| total := zero; count := 0 |}
              end in
    Some {| total := (total d0 + Expense.amount e)%float; count := count d0 + 1 |}
  else d.

(** One turn of the loop of [sumCategory]. *)
Definition condAdd (k : string) (t : float) (item : Expense.t) : float :=
  if String.eqb (Expense.category item) k then (t + Expense.amount item)%float else t.

(** One turn of the reduction of [topCategory]. *)
Definition pick (max : Top) (entry : string * CategoryData) : Top :=
  let '(category, data) := entry in
  if PrimFloat.ltb (top_total max) (total data)
  then {| top_category := category; top_total := total data |}
  else max.

(** [top] is the entry at position [i]: no entry has a larger total, and
    every earlier entry has a strictly smaller one. *)
Definition is_top (entries : list (string * CategoryData)) (i : nat) (top : Top)
  : Prop :=
  exists c d,
    nth_error entries i = Some (c, d)
    /\ top = {| top_category := c; top_total := total d |}
    /\ (forall j c' d', nth_error entries j = Some (c', d') ->
                        PrimFloat.leb (total d') (total d) = true)
    /\ (forall j c' d', j < i -> nth_error entries j = Some (c', d') ->
                        PrimFloat.ltb (total d') (total d) = true).

(** ** Sample calls and ledgers *)

#[local] Set Warnings "-inexact-float".

Definition add (x : float) (c d : string) : call :=
  CallAdd 0 (VNumber x) (VString c) (VString d).

Definition remove (x : float) : call := CallRemove (VNumber x).

(** Two additions, the removal of the first record, one more addition. *)
Definition calls_with_removal : list call :=
  [add 10 "food" "a"; add 20 "food" "b"; remove 1; add 30 "food" "c"].

(** The scenario of the specification's section 8. *)
Definition scenario : list Expense.t :=
  run [add 10 "food" "lunch"; add 25.5 "transport" "taxi"; add 5 "food" "coffee"].

Definition expense_of (n : nat) (x : float) (c : string) : Expense.t :=
  {| Expense.id := n; Expense.amount := x; Expense.category := c;
     Expense.description := ""; Expense.date := 0 |}.

(** The ledger after two additions and the removal of the first record. *)
Definition ledger_after_removal : list Expense.t :=
  run [add 10 "food" "a"; add 20 "food" "b"; remove 1].

(** Three records in two categories, the first and last in the same one. *)
Definition mixed : list Expense.t :=
  [expense_of 1 1.1 "food"; expense_of 2 2.2 "transport"; expense_of 3 3.3 "food"].

(** A call that is an addition. *)
Definition is_add (c : call) : bool :=
  match c with
  | CallAdd _ _ _ _ => true
  | CallRemove _ => false
  end.

(** The keys of [l] in order of first occurrence. *)
Definition firsts (l : list string) : list string :=
  fold_left (fun seen k => if existsb (String.eqb k) seen then seen else seen ++ [k])
            l [].

(** Case analysis on the exponent and mantissa comparisons that
    [SFcompare] performs on two finite values. *)
Ltac cmp_cases :=
  repeat match goal with
    | |- context [Z.compare ?a ?b] => destruct (Z.compare_spec a b)
    | H : context [Z.compare ?a ?b] |- _ => destruct (Z.compare_spec a b)
    | |- context [Pos.compare_cont Eq ?a ?b] =>
        change (Pos.compare_cont Eq a b) with (Pos.compare a b);
        destruct (Pos.compare_spec a b)
    | H : context [Pos.compare_cont Eq ?a ?b] |- _ =>
        change (Pos.compare_cont Eq a b) with (Pos.compare a b) in H;
        destruct (Pos.compare_spec a b)
    end.

(** ** Binary64 facts used by the aggregation results *)

Module Binary64.
Local Open Scope Z_scope.

Lemma digits2_pos_lower (m : positive) :
  2 ^ (Z.pos (digits2_pos m) - 1) <= Z.pos m.
Proof.
  induction m as [m IH | m IH |]; cbn [digits2_pos].
  - rewrite Pos2Z.inj_succ. replace (Z.succ (Z.pos (digits2_pos m)) - 1) with (Z.succ (Z.pos (digits2_pos m) - 1)) by lia.
    rewrite Z.pow_succ_r by lia. lia.
  - rewrite Pos2Z.inj_succ. replace (Z.succ (Z.pos (digits2_pos m)) - 1) with (Z.succ (Z.pos (digits2_pos m) - 1)) by lia.
    rewrite Z.pow_succ_r by lia. lia.
  - reflexivity.
Qed.

Lemma shr_1_m (r : shr_record) :
  0 <= shr_m r -> shr_m (shr_1 r) = shr_m r / 2.
Proof.
  destruct r as [m r s]; cbn [shr_m]. intros Hm.
  destruct m as [| [p | p |] | p]; cbn [shr_1 shr_m]; try lia.
  - reflexivity.
  - rewrite Pos2Z.inj_xI. apply Z.div_unique with (r := 1); lia.
  - rewrite Pos2Z.inj_xO. apply Z.div_unique with (r := 0); lia.
  - reflexivity.
Qed.

Lemma pow2_double (p : positive) : 2 ^ Z.pos p~0 = 2 ^ Z.pos p * 2 ^ Z.pos p.
Proof. rewrite <- Z.pow_add_r by lia. f_equal. lia. Qed.

Lemma iter_shr_1_m (p : positive) : forall r,
  0 <= shr_m r -> shr_m (iter_pos shr_1 p r) = shr_m r / 2 ^ Z.pos p.
Proof.
  assert (Hpow : forall q : positive, 0 < 2 ^ Z.pos q) by (intros; apply Z.pow_pos_nonneg; lia).
  induction p as [p IH | p IH |]; intros r Hr; cbn [iter_pos].
  - assert (H1 : 0 <= shr_m (shr_1 r)) by (rewrite shr_1_m by assumption; apply Z.div_pos; lia).
    assert (H2 : 0 <= shr_m (iter_pos shr_1 p (shr_1 r)))
      by (rewrite IH by assumption; apply Z.div_pos; [lia | apply Hpow]).
    rewrite IH, IH, shr_1_m by assumption.
    pose proof (Hpow p).
    rewrite !Z.div_div by lia. f_equal.
    rewrite Pos2Z.inj_xI, Z.pow_add_r, Z.pow_1_r by lia.
    change (2 * Z.pos p) with (Z.pos p~0). rewrite pow2_double. lia.
  - assert (H2 : 0 <= shr_m (iter_pos shr_1 p r))
      by (rewrite IH by assumption; apply Z.div_pos; [lia | apply Hpow]).
    rewrite IH, IH by assumption.
    pose proof (Hpow p).
    rewrite !Z.div_div by lia. f_equal.
    rewrite pow2_double. reflexivity.
  - rewrite shr_1_m by assumption. reflexivity.
Qed.

Lemma shr_m_of_loc m l : shr_m (shr_record_of_loc m l) = m.
Proof. destruct l as [| []]; reflexivity. Qed.

Lemma fexp_ge_emin e : emin <= fexp prec emax e.
Proof. unfold fexp. lia. Qed.

(** Shifting a positive mantissa to its canonical exponent keeps it positive. *)
Lemma shr_fexp_positive m e l :
  0 < m -> emin <= e ->
  0 < shr_m (fst (shr_fexp prec emax m e l)) /\ emin <= snd (shr_fexp prec emax m e l).
Proof.
  intros Hm He. unfold shr_fexp, shr.
  destruct m as [| p | p]; try lia. cbn [Zdigits2].
  set (d := Z.pos (digits2_pos p)).
  destruct (fexp prec emax (d + e) - e) as [| n | n] eqn:Hn; cbn [fst snd];
    rewrite ?shr_m_of_loc; try (split; lia).
  rewrite iter_shr_1_m by (rewrite shr_m_of_loc; lia). rewrite shr_m_of_loc.
  assert (Hfe : fexp prec emax (d + e) = d + e - prec) by (unfold fexp in *; unfold prec in *; lia).
  assert (Hlt : Z.pos n <= d - 1) by (unfold prec in *; lia).
  pose proof (digits2_pos_lower p) as Hlow. fold d in Hlow.
  split; [| lia].
  apply Z.div_str_pos. split; [apply Z.pow_pos_nonneg; lia |].
  eapply Z.le_trans; [| exact Hlow]. apply Z.pow_le_mono_r; lia.
Qed.

Lemma round_nearest_even_ge m l : m <= round_nearest_even m l.
Proof. destruct l as [| []]; cbn; try lia. destruct (Z.even m); lia. Qed.

Lemma binary_round_aux_positive m e l :
  0 < m -> emin <= e -> sf_positive (binary_round_aux prec emax false m e l) = true.
Proof.
  intros Hm He. unfold binary_round_aux.
  pose proof (shr_fexp_positive m e l Hm He) as [H1 H1e].
  destruct (shr_fexp prec emax m e l) as [mrs' e']. cbn [fst snd] in *.
  pose proof (round_nearest_even_ge (shr_m mrs') (loc_of_shr_record mrs')) as Hr.
  pose proof (shr_fexp_positive (round_nearest_even (shr_m mrs') (loc_of_shr_record mrs')) e' loc_Exact ltac:(lia) H1e) as [H2 _].
  destruct (shr_fexp prec emax _ e' loc_Exact) as [mrs'' e'']. cbn [fst snd] in *.
  destruct (shr_m mrs''); try lia.
  destruct (e'' <=? emax - prec); reflexivity.
Qed.

Lemma binary_round_positive m e :
  emin <= e -> sf_positive (binary_round prec emax false m e) = true.
Proof.
  intros He. unfold binary_round, shl_align.
  pose proof (fexp_ge_emin (Z.pos (digits2_pos m) + e)) as Hf.
  destruct (fexp prec emax (Z.pos (digits2_pos m) + e) - e);
    apply binary_round_aux_positive; lia.
Qed.

Lemma valid_binary_emin s m e :
  valid_binary (S754_finite s m e) = true -> emin <= e.
Proof.
  cbn. unfold bounded, canonical_mantissa. intros H.
  apply andb_true_iff in H as [H _]. apply Z.eqb_eq in H.
  rewrite <- H. apply fexp_ge_emin.
Qed.

Lemma SFadd_positive x y :
  valid_binary x = true -> valid_binary y = true ->
  sf_positive x = true -> sf_positive y = true ->
  sf_positive (SF64add x y) = true.
Proof.
  intros Vx Vy Px Py.
  destruct x as [sx | [] | | [] mx ex]; try discriminate;
  destruct y as [sy | [] | | [] my ey]; try discriminate; try reflexivity.
  apply valid_binary_emin in Vx, Vy.
  unfold SF64add, SFadd. cbn [cond_Zopp].
  unfold shl_align.
  destruct (Z.min ex ey - ex); destruct (Z.min ex ey - ey); cbn [fst Z.add binary_normalize];
    apply binary_round_positive; lia.
Qed.

Lemma Prim2SF_zero : Prim2SF zero = S754_zero false.
Proof. reflexivity. Qed.

Lemma ltb_zero_positive (x : float) :
  PrimFloat.ltb zero x = sf_positive (Prim2SF x).
Proof.
  rewrite ltb_spec, Prim2SF_zero.
  destruct (Prim2SF x) as [s | [] | | [] m e]; reflexivity.
Qed.

Lemma add_positive (x y : float) :
  PrimFloat.ltb zero x = true -> PrimFloat.ltb zero y = true ->
  PrimFloat.ltb zero (x + y) = true.
Proof.
  rewrite !ltb_zero_positive, add_spec. intros Hx Hy.
  apply SFadd_positive; auto using Prim2SF_valid.
Qed.

Lemma zero_add_positive (x : float) :
  PrimFloat.ltb zero x = true -> (zero + x)%float = x.
Proof.
  rewrite ltb_zero_positive. intros Hx.
  apply Prim2SF_inj. rewrite add_spec, Prim2SF_zero.
  destruct (Prim2SF x) as [s | [] | | [] m e]; try discriminate; reflexivity.
Qed.

Lemma SFltb_false_leb x y :
  sf_positive x = true -> sf_positive y = true ->
  SFltb x y = false -> SFleb y x = true.
Proof.
  destruct x as [sx | [] | | [] mx ex]; try discriminate;
  destruct y as [sy | [] | | [] my ey]; try discriminate; intros _ _;
  unfold SFltb, SFleb; cbn [SFcompare]; try reflexivity; try discriminate.
  cmp_cases; try reflexivity; try discriminate; try lia.
Qed.

Lemma SFleb_ltb_trans x y z :
  sf_positive x = true -> sf_positive y = true -> sf_positive z = true ->
  SFleb x y = true -> SFltb y z = true -> SFltb x z = true.
Proof.
  destruct x as [sx | [] | | [] mx ex]; try discriminate;
  destruct y as [sy | [] | | [] my ey]; try discriminate;
  destruct z as [sz | [] | | [] mz ez]; try discriminate; intros _ _ _;
  unfold SFltb, SFleb; cbn [SFcompare]; try reflexivity; try discriminate.
  cmp_cases; try reflexivity; try discriminate; try lia.
Qed.

Lemma SFltb_leb x y : SFltb x y = true -> SFleb x y = true.
Proof. unfold SFltb, SFleb. destruct (SFcompare x y) as [[]|]; auto. Qed.

Lemma SFleb_refl x : sf_positive x = true -> SFleb x x = true.
Proof.
  destruct x as [sx | [] | | [] mx ex]; try discriminate; intros _;
  unfold SFleb; cbn [SFcompare]; try reflexivity.
  rewrite Z.compare_refl. change (Pos.compare_cont Eq mx mx) with (Pos.compare mx mx).
  rewrite Pos.compare_refl. reflexivity.
Qed.

End Binary64.
Import Binary64.

(** ** Objects as ordered maps *)

Section ObjFacts.
Context {V : Type}.
Implicit Types (o : Obj.t V) (k : string) (v : V).

Lemma get_set_same o k v : Obj.get (Obj.set o k v) k = Some v.
Proof.
    induction o as [| [k' v'] o IH]; cbn.
    - now rewrite String.eqb_refl.
    - destruct (String.eqb k' k) eqn:E; cbn; rewrite E; auto.
Qed.

Lemma get_set_other o k k' v : k <> k' -> Obj.get (Obj.set o k v) k' = Obj.get o k'.
Proof.
    intros Hne. induction o as [| [k0 v0] o IH]; cbn.
    - destruct (String.eqb k k') eqn:E; auto. apply String.eqb_eq in E. contradiction.
    - destruct (String.eqb k0 k) eqn:E; cbn.
      + apply String.eqb_eq in E. subst k0.
        destruct (String.eqb k k') eqn:E'; auto. apply String.eqb_eq in E'. contradiction.
      + destruct (String.eqb k0 k'); auto.
Qed.

Lemma get_update_same o k f :
    Obj.get (Obj.update o k f) k = option_map f (Obj.get o k).
Proof.
    unfold Obj.update. destruct (Obj.get o k) eqn:E; cbn.
    - apply get_set_same.
    - exact E.
Qed.

Lemma get_update_other o k k' f : k <> k' -> Obj.get (Obj.update o k f) k' = Obj.get o k'.
Proof.
    intros Hne. unfold Obj.update. destruct (Obj.get o k); auto using get_set_other.
Qed.

Lemma keys_set_absent o k v :
    Obj.get o k = None -> map fst (Obj.set o k v) = map fst o ++ [k].
Proof.
    induction o as [| [k' v'] o IH]; cbn; auto.
    destruct (String.eqb k' k); [discriminate |]. intros H. cbn. now rewrite IH.
Qed.

Lemma keys_set_present o k v :
    Obj.get o k <> None -> map fst (Obj.set o k v) = map fst o.
Proof.
    induction o as [| [k' v'] o IH]; cbn; [congruence |].
    destruct (String.eqb k' k) eqn:E; cbn; auto. intros H. now rewrite IH.
Qed.

Lemma get_None_keys o k : Obj.get o k = None <-> ~ In k (map fst o).
Proof.
    induction o as [| [k' v'] o IH]; cbn; [tauto |].
    destruct (String.eqb k' k) eqn:E.
    - apply String.eqb_eq in E. split; [discriminate | tauto].
    - apply String.eqb_neq in E. rewrite IH. tauto.
Qed.

Lemma get_In o k v : Obj.get o k = Some v -> In (k, v) o.
Proof.
    induction o as [| [k' v'] o IH]; cbn; [discriminate |].
    destruct (String.eqb k' k) eqn:E; auto.
    apply String.eqb_eq in E. intros [= ->]. subst. auto.
Qed.

Lemma In_get o k v : NoDup (map fst o) -> In (k, v) o -> Obj.get o k = Some v.
Proof.
    induction o as [| [k' v'] o IH]; cbn; [tauto |].
    intros Hnd [H | H]; inversion Hnd; subst.
    - injection H as -> ->. now rewrite String.eqb_refl.
    - destruct (String.eqb k' k) eqn:E; auto.
      apply String.eqb_eq in E. subst k'. exfalso. apply H2.
      change k with (fst (k, v)). now apply in_map.
Qed.
End ObjFacts.

Lemma get_tally o e k : Obj.get (tally o e) k = bump k (Obj.get o k) e.
Proof.
  unfold tally, bump.
  destruct (String.eqb (Expense.category e) k) eqn:E.
  - apply String.eqb_eq in E. subst k.
    rewrite !get_update_same.
    destruct (Obj.get o (Expense.category e)) eqn:G.
    + rewrite G. reflexivity.
    + rewrite get_set_same. reflexivity.
  - apply String.eqb_neq in E.
    rewrite !get_update_other by assumption.
    destruct (Obj.get o (Expense.category e)); auto using get_set_other.
Qed.

Lemma get_fold_tally l : forall o k,
  Obj.get (fold_left tally l o) k = fold_left (bump k) l (Obj.get o k).
Proof.
  induction l as [| e l IH]; intros o k; cbn; auto.
  now rewrite IH, get_tally.
Qed.

(** ** The grouping of [generateReport] *)

Lemma sumCategory_fold k l : sumCategory k l = fold_left (condAdd k) l zero.
Proof. reflexivity. Qed.

Lemma fold_bump_Some k l : forall d,
  fold_left (bump k) l (Some d)
  = Some {| total := fold_left (condAdd k) l (total d);
            count := count d + List.length (ofCategory k l) |}.
Proof.
  induction l as [| e l IH]; intros [t c]; cbn.
  - now rewrite Nat.add_0_r.
  - unfold bump at 2, condAdd at 2.
    destruct (String.eqb (Expense.category e) k); rewrite IH; cbn;
      f_equal; f_equal; try reflexivity; unfold ofCategory; lia.
Qed.

Lemma fold_bump_None k l :
  fold_left (bump k) l None
  = match ofCategory k l with
    | [] => None
    | _ :: _ => Some {| total := sumCategory k l; count := List.length (ofCategory k l) |}
    end.
Proof.
  induction l as [| e l IH]; cbn; auto.
  unfold bump at 2, sumCategory. cbn.
  destruct (String.eqb (Expense.category e) k) eqn:E.
  - rewrite fold_bump_Some. cbn. reflexivity.
  - rewrite IH. unfold ofCategory. destruct (filter _ l); reflexivity.
Qed.

Section Keys.
Context {V : Type}.
Lemma keys_update (o : Obj.t V) k f : map fst (Obj.update o k f) = map fst o.
Proof.
    unfold Obj.update. destruct (Obj.get o k) eqn:E; auto.
    apply keys_set_present. congruence.
Qed.
End Keys.

Lemma keys_tally o e :
  map fst (tally o e)
  = match Obj.get o (Expense.category e) with
    | None => map fst o ++ [Expense.category e]
    | Some _ => map fst o
    end.
Proof.
  unfold tally. rewrite !keys_update.
  destruct (Obj.get o (Expense.category e)) eqn:E; auto using keys_set_absent.
Qed.

Lemma NoDup_snoc {A} (l : list A) x : NoDup l -> ~ In x l -> NoDup (l ++ [x]).
Proof.
  intros Hl Hx. apply NoDup_app; auto.
  - constructor; [intros [] | constructor].
  - intros y Hy [<- | []]. contradiction.
Qed.

Lemma keys_fold_NoDup l : forall o,
  NoDup (map fst o) -> NoDup (map fst (fold_left tally l o)).
Proof.
  induction l as [| e l IH]; intros o Ho; cbn; auto.
  apply IH. rewrite keys_tally.
  destruct (Obj.get o (Expense.category e)) eqn:E; auto.
  apply NoDup_snoc; auto. now apply get_None_keys.
Qed.

Lemma categoryTotals_NoDup l : NoDup (map fst (categoryTotals l)).
Proof. apply keys_fold_NoDup. constructor. Qed.

(** Every entry of the grouping holds the count and the running sum of
    its category's records. *)
Lemma categoryTotals_entry l k d :
  In (k, d) (categoryTotals l) ->
  ofCategory k l <> []
  /\ total d = sumCategory k l
  /\ count d = List.length (ofCategory k l).
Proof.
  intros Hin. apply In_get in Hin; [| apply categoryTotals_NoDup].
  unfold categoryTotals in Hin. rewrite get_fold_tally in Hin. cbn in Hin.
  rewrite fold_bump_None in Hin.
  destruct (ofCategory k l) eqn:E; [discriminate |].
  injection Hin as <-. cbn. repeat split. discriminate.
Qed.

Lemma categoryTotals_present l e :
  In e l -> exists d, In (Expense.category e, d) (categoryTotals l).
Proof.
  intros Hin.
  destruct (Obj.get (categoryTotals l) (Expense.category e)) eqn:G.
  - eauto using get_In.
  - unfold categoryTotals in G. rewrite get_fold_tally, fold_bump_None in G. cbn in G.
    destruct (ofCategory (Expense.category e) l) eqn:E; [| discriminate].
    assert (H : In e (ofCategory (Expense.category e) l)).
    { apply filter_In. split; auto. apply String.eqb_refl. }
    rewrite E in H. destruct H.
Qed.

(** Counts *)
Lemma countSum_cons k v (o : Obj.t CategoryData) :
  countSum ((k, v) :: o) = count v + countSum o.
Proof. reflexivity. Qed.

Lemma countSum_set_absent (o : Obj.t CategoryData) k v :
  Obj.get o k = None -> countSum (Obj.set o k v) = countSum o + count v.
Proof.
  induction o as [| [k' v'] o IH]; cbn [Obj.get Obj.set].
  - intros _. rewrite countSum_cons. cbn. lia.
  - destruct (String.eqb k' k); [discriminate |]. intros H.
    rewrite !countSum_cons, IH by assumption. lia.
Qed.

Lemma countSum_set_present (o : Obj.t CategoryData) k v d :
  Obj.get o k = Some d -> countSum (Obj.set o k v) + count d = countSum o + count v.
Proof.
  induction o as [| [k' v'] o IH]; cbn [Obj.get Obj.set]; [discriminate |].
  destruct (String.eqb k' k).
  - intros [= ->]. rewrite !countSum_cons. lia.
  - intros H. specialize (IH H). rewrite !countSum_cons. lia.
Qed.

Lemma countSum_update (o : Obj.t CategoryData) k f d :
  Obj.get o k = Some d -> countSum (Obj.update o k f) + count d = countSum o + count (f d).
Proof.
  intros H. unfold Obj.update. rewrite H. now apply countSum_set_present.
Qed.

Lemma countSum_tally o e : countSum (tally o e) = countSum o + 1.
Proof.
  unfold tally.
  set (k := Expense.category e).
  set (o1 := match Obj.get o k with None => Obj.set o k _ | Some _ => o end).
  assert (H1 : exists d, Obj.get o1 k = Some d /\ countSum o1 = countSum o + 0 /\ True).
  { unfold o1. destruct (Obj.get o k) eqn:G.
    - exists c. rewrite G. repeat split. lia.
    - eexists. rewrite get_set_same. split; [reflexivity |].
      rewrite countSum_set_absent by assumption. cbn. auto. }
  destruct H1 as (d & G1 & C1 & _).
  set (f1 := fun d0 : CategoryData => {| total := (total d0 + Expense.amount e)%float; count := count d0 |}).
  pose proof (countSum_update o1 k f1 d G1) as C2.
  assert (G2 : Obj.get (Obj.update o1 k f1) k = Some (f1 d)) by (rewrite get_update_same, G1; reflexivity).
  pose proof (countSum_update _ k (fun d0 => {| total := total d0; count := count d0 + 1 |}) _ G2) as C3.
  cbn in C2, C3. lia.
Qed.

Lemma countSum_fold l : forall o,
  countSum (fold_left tally l o) = countSum o + List.length l.
Proof.
  induction l as [| e l IH]; intros o; cbn [fold_left List.length]; [lia |].
  rewrite IH, countSum_tally. lia.
Qed.

Lemma countSum_categoryTotals l : countSum (categoryTotals l) = List.length l.
Proof. unfold categoryTotals. now rewrite countSum_fold. Qed.

(** Prim-level order facts on Numbers above zero *)
Lemma ltb_false_leb x y :
  PrimFloat.ltb zero x = true -> PrimFloat.ltb zero y = true ->
  PrimFloat.ltb x y = false -> PrimFloat.leb y x = true.
Proof.
  rewrite !ltb_zero_positive, ltb_spec, leb_spec. apply SFltb_false_leb.
Qed.

Lemma leb_ltb_trans x y z :
  PrimFloat.ltb zero x = true -> PrimFloat.ltb zero y = true ->
  PrimFloat.ltb zero z = true ->
  PrimFloat.leb x y = true -> PrimFloat.ltb y z = true -> PrimFloat.ltb x z = true.
Proof.
  rewrite !ltb_zero_positive, !ltb_spec, leb_spec. apply SFleb_ltb_trans.
Qed.

Lemma ltb_leb x y : PrimFloat.ltb x y = true -> PrimFloat.leb x y = true.
Proof. rewrite ltb_spec, leb_spec. apply SFltb_leb. Qed.

Lemma leb_refl_positive x : PrimFloat.ltb zero x = true -> PrimFloat.leb x x = true.
Proof. rewrite ltb_zero_positive, leb_spec. apply SFleb_refl. Qed.

(** Sums of positive amounts are positive *)
Lemma fold_condAdd_positive k l : forall t,
  Forall valid_expense l ->
  PrimFloat.ltb zero t = true ->
  PrimFloat.ltb zero (fold_left (condAdd k) l t) = true.
Proof.
  induction l as [| e l IH]; intros t Hl Ht; cbn; auto.
  inversion Hl as [| ? ? [He _] Hl']; subst.
  apply IH; auto. unfold condAdd.
  destruct (String.eqb (Expense.category e) k); auto using add_positive.
Qed.

Lemma sumCategory_positive k l :
  Forall valid_expense l -> ofCategory k l <> [] ->
  PrimFloat.ltb zero (sumCategory k l) = true.
Proof.
  rewrite sumCategory_fold.
  induction l as [| e l IH]; intros Hl Hne; [contradiction |].
  inversion Hl as [| ? ? [He _] Hl']; subst.
  cbn in *. unfold condAdd at 2.
  destruct (String.eqb (Expense.category e) k).
  - apply fold_condAdd_positive; auto. now rewrite zero_add_positive.
  - auto.
Qed.

Lemma categoryTotals_positive l :
  Forall valid_expense l ->
  Forall (fun entry => PrimFloat.ltb zero (total (snd entry)) = true) (categoryTotals l).
Proof.
  intros Hl. apply Forall_forall. intros [k d] Hin.
  apply categoryTotals_entry in Hin as (Hne & Htot & _).
  cbn [snd]. rewrite Htot. now apply sumCategory_positive.
Qed.

Lemma categoryTotals_nonempty l : l <> [] -> categoryTotals l <> [].
Proof.
  destruct l as [| e l]; [contradiction |]. intros _ H.
  destruct (categoryTotals_present (e :: l) e (or_introl eq_refl)) as [d Hd].
  rewrite H in Hd. destruct Hd.
Qed.

Lemma topCategory_fold totals :
  topCategory totals = fold_left pick totals {| top_category := ""; top_total := zero |}.
Proof. reflexivity. Qed.

Lemma topCategory_is_top entries :
  entries <> [] ->
  Forall (fun entry => PrimFloat.ltb zero (total (snd entry)) = true) entries ->
  exists i, is_top entries i (topCategory entries).
Proof.
  rewrite topCategory_fold.
  induction entries as [| [c d] entries IH] using rev_ind; [contradiction |].
  intros _ Hall. apply Forall_app in Hall as [Hall Hd].
  inversion Hd as [| ? ? Hpos _]; subst. cbn [snd] in Hpos.
  rewrite fold_left_app. cbn [fold_left].
  assert (Hcase : entries = [] \/ entries <> [])
    by (destruct entries; [left | right]; congruence).
  destruct Hcase as [-> | Hne].
  - (* the first entry replaces the sentinel *)
    cbn [pick top_total app fold_left]. rewrite Hpos. exists 0, c, d. repeat split.
    + intros [| j] c' d'; cbn; [intros [= <- <-]; now apply leb_refl_positive |].
      destruct j; discriminate.
    + intros j c' d' Hj. lia.
  - destruct (IH Hne Hall) as (i & ci & di & Hi & Htop & Hmax & Hfirst).
    rewrite Htop. cbn [pick top_total].
    assert (Hposi : PrimFloat.ltb zero (total di) = true).
    { apply nth_error_In in Hi. rewrite Forall_forall in Hall. apply (Hall _ Hi). }
    assert (Hposj : forall j c' d', nth_error entries j = Some (c', d') ->
                                    PrimFloat.ltb zero (total d') = true).
    { intros j c' d' Hj. apply nth_error_In in Hj. rewrite Forall_forall in Hall.
      apply (Hall _ Hj). }
    assert (Hlen : i < List.length entries) by (apply nth_error_Some; congruence).
    destruct (PrimFloat.ltb (total di) (total d)) eqn:Hlt.
    + (* the new entry is strictly larger: it becomes the maximum *)
      exists (List.length entries), c, d.
      assert (Hbelow : forall j c' d', nth_error entries j = Some (c', d') ->
                                       PrimFloat.ltb (total d') (total d) = true).
      { intros j c' d' Hj. eapply leb_ltb_trans with (y := total di); eauto. }
      repeat split.
      * rewrite nth_error_app2, Nat.sub_diag by lia. reflexivity.
      * intros j c' d' Hj.
        destruct (Nat.lt_ge_cases j (List.length entries)) as [Hjl | Hjl].
        -- rewrite nth_error_app1 in Hj by assumption. apply ltb_leb. eauto.
        -- rewrite nth_error_app2 in Hj by assumption.
           destruct (j - List.length entries) as [| n]; cbn in Hj;
             [injection Hj as <- <-; now apply leb_refl_positive | destruct n; discriminate].
      * intros j c' d' Hjl Hj. rewrite nth_error_app1 in Hj by assumption. eauto.
    + (* the maximum stays *)
      exists i, ci, di. repeat split.
      * rewrite nth_error_app1 by assumption. exact Hi.
      * intros j c' d' Hj.
        destruct (Nat.lt_ge_cases j (List.length entries)) as [Hjl | Hjl].
        -- rewrite nth_error_app1 in Hj by assumption. eauto.
        -- rewrite nth_error_app2 in Hj by assumption.
           destruct (j - List.length entries) as [| n]; cbn in Hj;
             [injection Hj as <- <-; now apply ltb_false_leb | destruct n; discriminate].
      * intros j c' d' Hjl Hj. rewrite nth_error_app1 in Hj by lia. eauto.
Qed.

(** ** The validator *)

Lemma typeof_number v : typeof v = "number" <-> exists x, v = VNumber x.
Proof.
  destruct v; cbn; split; try discriminate; try (intros [? [=]]); eauto.
Qed.

Lemma typeof_string v : typeof v = "string" <-> exists s, v = VString s.
Proof.
  destruct v; cbn; split; try discriminate; try (intros [? [=]]); eauto.
Qed.

(** The verdict of [checkValidity] is the conjunction of its four tests. *)
Lemma checkValidity_verdict a c d :
  fst (checkValidity a c d)
  = negb (le_number a zero) && String.eqb (typeof a) "number"
    && categories_includes c && String.eqb (typeof d) "string".
Proof.
  unfold checkValidity.
  destruct (le_number a zero), (String.eqb (typeof a) "number"),
    (categories_includes c), (String.eqb (typeof d) "string"); reflexivity.
Qed.

Lemma checkValidity_accepts_quietly a c d :
  fst (checkValidity a c d) = true -> checkValidity a c d = (true, []).
Proof.
  unfold checkValidity.
  destruct (le_number a zero), (String.eqb (typeof a) "number"),
    (categories_includes c), (String.eqb (typeof d) "string"); cbn;
    intros; congruence.
Qed.


(** Above zero means not [<= 0]; the converse fails for NaN only. *)
Lemma leb_zero_false x :
  PrimFloat.leb x zero = false
  <-> PrimFloat.ltb zero x = true \/ Prim2SF x = S754_nan.
Proof.
  rewrite leb_spec, ltb_spec, Prim2SF_zero.
  destruct (Prim2SF x) as [s | [] | | [] m e]; cbn; intuition discriminate.
Qed.

Lemma checkValidity_accepts a c d :
  valid_input a c d -> checkValidity a c d = (true, []).
Proof.
  intros [(x & -> & Hx) [Hc (s & ->)]].
  apply checkValidity_accepts_quietly. rewrite checkValidity_verdict.
  unfold le_number. cbn [ToNumber typeof].
  assert (Hle : PrimFloat.leb x zero = false) by (apply leb_zero_false; auto).
  rewrite Hle, Hc. reflexivity.
Qed.

(** ** Lookups *)

Lemma findIndex_find {A} (p : A -> bool) l :
  find p l = match findIndex p l with
             | Some i => nth_error l i
             | None => None
             end.
Proof.
  induction l as [| x l IH]; cbn; auto.
  destruct (p x); auto. rewrite IH. destruct (findIndex p l); reflexivity.
Qed.

Lemma findIndex_Some {A} (p : A -> bool) l i :
  findIndex p l = Some i -> exists x, nth_error l i = Some x /\ p x = true.
Proof.
  revert i. induction l as [| y l IH]; cbn; [discriminate |].
  intros i. destruct (p y) eqn:E.
  - intros [= <-]. exists y. split; [reflexivity | exact E].
  - destruct (findIndex p l) as [i0 |]; cbn; [| discriminate].
    intros [= <-]. cbn. apply IH. reflexivity.
Qed.

Lemma findIndex_None {A} (p : A -> bool) l :
  findIndex p l = None <-> find p l = None.
Proof.
  rewrite findIndex_find. destruct (findIndex p l) as [i |] eqn:E; [| tauto].
  apply findIndex_Some in E as (x & Hx & _). rewrite Hx. split; discriminate.
Qed.

Lemma splice1_length {A} (l : list A) : forall i x,
  nth_error l i = Some x -> List.length (splice1 i l) + 1 = List.length l.
Proof.
  induction l as [| y l IH]; intros [| i] x; cbn; try discriminate.
  - intros _. lia.
  - intros H. rewrite <- (IH _ _ H). lia.
Qed.

Lemma find_app_fresh {A} (p : A -> bool) l x :
  find p l = None -> p x = true -> find p (l ++ [x]) = Some x.
Proof.
  induction l as [| y l IH]; cbn; [intros _ -> ; reflexivity |].
  destruct (p y); [discriminate | auto].
Qed.

(** A Number made from a natural number is strictly equal to itself. *)
Lemma Number_of_nat_eq n : strictEq_number (Number_of_nat n) (Number_of_nat n) = true.
Proof.
  unfold strictEq_number, Number_of_nat. rewrite eqb_spec, of_uint63_spec.
  destruct (Uint63.to_Z_bounded (of_Z (Z.of_nat n))) as [Hlo _].
  destruct (to_Z (of_Z (Z.of_nat n))) as [| p | p]; [reflexivity | | lia].
  cbn [binary_normalize].
  pose proof (binary_round_positive p 0%Z ltac:(unfold emin, emax, prec; lia)) as Hp.
  destruct (binary_round prec emax false p 0) as [s | [] | | [] m e]; try discriminate.
  - reflexivity.
  - unfold SFeqb. cbn [SFcompare]. rewrite Z.compare_refl.
    change (Pos.compare_cont Eq m m) with (Pos.compare m m).
    now rewrite Pos.compare_refl.
Qed.

(** ** Shapes of the results of [addExpense] and of the grouping's keys *)

Lemma existsb_keys {V} (o : Obj.t V) k :
  existsb (String.eqb k) (map fst o)
  = match Obj.get o k with Some _ => true | None => false end.
Proof.
  induction o as [| [k' v] o IH]; cbn; auto.
  rewrite (String.eqb_sym k k'). destruct (String.eqb k' k); auto.
Qed.

Lemma keys_fold_tally l : forall o,
  map fst (fold_left tally l o)
  = fold_left (fun seen k => if existsb (String.eqb k) seen then seen else seen ++ [k])
      (map Expense.category l) (map fst o).
Proof.
  induction l as [| e l IH]; intros o; cbn [fold_left map]; auto.
  rewrite IH, keys_tally, existsb_keys.
  destruct (Obj.get o (Expense.category e)); reflexivity.
Qed.

Lemma addExpense_shape now a c d expenses :
  fst (addExpense now a c d expenses) = expenses
  \/ exists e, fst (addExpense now a c d expenses) = expenses ++ [e]
               /\ Expense.id e = List.length expenses + 1.
Proof.
  unfold addExpense. destruct (checkValidity a c d) as [[] out]; cbn [fst]; eauto.
Qed.

Lemma ids_fold_adds calls : forall expenses,
  forallb is_add calls = true ->
  map Expense.id expenses = seq 1 (List.length expenses) ->
  map Expense.id (fold_left step calls expenses)
  = seq 1 (List.length (fold_left step calls expenses)).
Proof.
  induction calls as [| c calls IH]; intros expenses Hadds Hids; cbn [fold_left]; auto.
  cbn [forallb] in Hadds. apply andb_true_iff in Hadds as [Hc Hadds].
  apply IH; auto.
  destruct c as [now a c d | i]; [| discriminate]. cbn [step].
  destruct (addExpense_shape now a c d expenses) as [-> | (e & -> & He)]; auto.
  rewrite map_app, length_app, Hids. cbn [map List.length].
  rewrite Nat.add_1_r, seq_S, He. f_equal. f_equal. lia.
Qed.

Lemma addExpense_valid_eq now a c d expenses :
  valid_input a c d ->
  addExpense now a c d expenses
  = (expenses ++ [ {| Expense.id := List.length expenses + 1;
                      Expense.amount := number_of a;
                      Expense.category := string_of c;
                      Expense.description := string_of d;
                      Expense.date := now |} ],
     [console_log [Txt "Expense added successfully. ID: ";
                   Int (List.length expenses + 1)]]).
Proof.
  intros H. unfold addExpense. rewrite (checkValidity_accepts _ _ _ H). reflexivity.
Qed.

Lemma sumAmounts_single b :
  valid_expense b -> sumAmounts [b] = Expense.amount b.
Proof. intros [Hb _]. unfold sumAmounts. cbn. now apply zero_add_positive. Qed.

Lemma calculateTotal_nonempty expenses :
  expenses <> [] ->
  calculateTotal "" expenses = [console_log [Txt "Total: "; Num (sumAmounts expenses)]].
Proof. destruct expenses; [contradiction | reflexivity]. Qed.

(** ** Ledgers in a single category *)

Lemma fold_add_positive l : forall t,
  Forall valid_expense l ->
  PrimFloat.ltb zero t = true ->
  PrimFloat.ltb zero
    (fold_left (fun total item => (total + Expense.amount item)%float) l t) = true.
Proof.
  induction l as [| e l IH]; intros t Hl Ht; cbn [fold_left]; auto.
  inversion Hl as [| ? ? [He _] Hl']; subst.
  apply IH; auto using add_positive.
Qed.

Lemma sumAmounts_positive l :
  l <> [] -> Forall valid_expense l -> PrimFloat.ltb zero (sumAmounts l) = true.
Proof.
  destruct l as [| e l]; [contradiction |]. intros _ Hl.
  inversion Hl as [| ? ? [He _] Hl']; subst.
  unfold sumAmounts. cbn [fold_left].
  apply fold_add_positive; auto. now rewrite zero_add_positive.
Qed.

Lemma tally_single c d e :
  Expense.category e = c ->
  tally [(c, d)] e
  = [(c, {| total := (total d + Expense.amount e)%float; count := count d + 1 |})].
Proof.
  intros <-. unfold tally, Obj.update.
  repeat (cbn [Obj.get Obj.set]; rewrite ?String.eqb_refl).
  reflexivity.
Qed.

Lemma fold_tally_single c l : forall d,
  (forall e, In e l -> Expense.category e = c) ->
  fold_left tally l [(c, d)]
  = [(c, {| total := fold_left (fun total item => (total + Expense.amount item)%float)
                       l (total d);
            count := count d + List.length l |})].
Proof.
  induction l as [| e l IH]; intros d Hc; cbn [fold_left List.length].
  - rewrite Nat.add_0_r. destruct d; reflexivity.
  - rewrite tally_single by (apply Hc; left; reflexivity).
    rewrite IH by (intros; apply Hc; right; assumption).
    cbn [total count]. do 3 f_equal. lia.
Qed.

(** A ledger in one category has one entry, which holds the total. *)
Lemma categoryTotals_single_category c l :
  l <> [] -> (forall e, In e l -> Expense.category e = c) ->
  categoryTotals l
  = [(c, {| total := sumAmounts l; count := List.length l |})].
Proof.
  destruct l as [| e l]; [contradiction |]. intros _ Hc.
  unfold categoryTotals. cbn [fold_left].
  assert (He : Expense.category e = c) by (apply Hc; left; reflexivity).
  assert (H1 : tally [] e
               = [(c, {| total := (zero + Expense.amount e)%float; count := 0 + 1 |})]).
  { rewrite <- He. unfold tally, Obj.update.
    repeat (cbn [Obj.get Obj.set]; rewrite ?String.eqb_refl).
    reflexivity. }
  rewrite H1, fold_tally_single by (intros; apply Hc; right; assumption).
  reflexivity.
Qed.

Lemma grandTotal_single_category c l :
  l <> [] -> Forall valid_expense l ->
  (forall e, In e l -> Expense.category e = c) ->
  grandTotal (categoryTotals l) = sumAmounts l.
Proof.
  intros Hne Hl Hc. rewrite (categoryTotals_single_category c l Hne Hc).
  unfold grandTotal. cbn [Obj.entries fold_left total].
  apply zero_add_positive. now apply sumAmounts_positive.
Qed.

(** * Properties stated by the specification *)

(** ** Ledger *)

(** C1 (not met by the script).  Ids are taken from the array length
    ([id: expenses.length + 1]), so a removal makes the next addition
    repeat an id.  After two additions, the removal of id 1 and one more
    addition, the reachable ledger holds the ids [2; 2]: they are not
    pairwise distinct.  After one addition, its removal and one more
    addition, the freed id 1 is assigned again. *)
Theorem ids_repeat_after_removal :
  reachable (run calls_with_removal)
  /\ map Expense.id (run calls_with_removal) = [2; 2]
  /\ ~ NoDup (map Expense.id (run calls_with_removal))
  /\ map Expense.id (run [add 10 "food" "a"; remove 1; add 20 "food" "b"]) = [1].
Proof.
  assert (Hids : map Expense.id (run calls_with_removal) = [2; 2])
    by (vm_compute; reflexivity).
  split; [exists calls_with_removal; reflexivity |].
  split; [exact Hids |].
  split; [| vm_compute; reflexivity].
  rewrite Hids. intros Hnd. inversion Hnd as [| ? ? Hnotin _]; subst.
  apply Hnotin. left. reflexivity.
Qed.

(** C2 (not met by the script).  NaN is not a positive number, and yet
    [checkValidity(NaN, "food", "lunch")] succeeds without a diagnostic:
    [NaN <= 0] is false and [typeof NaN] is ["number"]. *)
Theorem checkValidity_accepts_NaN :
  PrimFloat.ltb zero nan = false
  /\ checkValidity (VNumber nan) (VString "food") (VString "lunch") = (true, []).
Proof. split; vm_compute; reflexivity. Qed.

(** C3 (not met by the script).  On the ledger left by two additions and
    the removal of id 1, which holds one record with id 2, the valid call
    [addExpense(30, "food", "c")] reports the id 2 for the new record, and
    looking id 2 up in the resulting ledger yields the older record
    (amount 20, description "b"), not the one just added. *)
Theorem added_id_resolves_to_older_record :
  map Expense.id ledger_after_removal = [2]
  /\ snd (addExpense 0 (VNumber 30) (VString "food") (VString "c")
            ledger_after_removal)
     = [console_log [Txt "Expense added successfully. ID: "; Int 2]]
  /\ findById (Number_of_nat 2)
       (fst (addExpense 0 (VNumber 30) (VString "food") (VString "c")
               ledger_after_removal))
     = Some {| Expense.id := 2; Expense.amount := 20; Expense.category := "food";
               Expense.description := "b"; Expense.date := 0 |}.
Proof. repeat split; vm_compute; reflexivity. Qed.



(** C5 (not met by the script).  On the reachable ledger with ids [2; 2],
    [removeExpense(2)] shortens the ledger by exactly one record, and a
    subsequent lookup of id 2 still finds a record: the twin that shared
    the id. *)
Theorem removed_id_still_found :
  map Expense.id (run calls_with_removal) = [2; 2]
  /\ List.length (fst (removeExpense (VNumber 2) (run calls_with_removal))) + 1
     = List.length (run calls_with_removal)
  /\ findById 2 (fst (removeExpense (VNumber 2) (run calls_with_removal)))
     = Some {| Expense.id := 2; Expense.amount := 30; Expense.category := "food";
               Expense.description := "c"; Expense.date := 0 |}.
Proof. repeat split; vm_compute; reflexivity. Qed.



(** ** Aggregation *)

(** C7 as stated fails: with A = [0.1] and B = [0.2; 0.3] the total of
    [A ++ B] is (0.1 + 0.2) + 0.3, which is not 0.1 + (0.2 + 0.3). *)
Lemma sumAmounts_not_additive :
  sumAmounts ([expense_of 1 0.1 "food"]
              ++ [expense_of 2 0.2 "food"; expense_of 3 0.3 "food"])
  <> (sumAmounts [expense_of 1 0.1 "food"]
      + sumAmounts [expense_of 2 0.2 "food"; expense_of 3 0.3 "food"])%float.
Proof.
  intros H. apply (f_equal (fun x => PrimFloat.eqb x 0.6)) in H.
  vm_compute in H. discriminate.
Qed.

(** C7, amended.  The total of [A ++ B] continues the running sum of [A]:
    the amounts of [B] are added to it one by one, left to right.  It is
    the sum of the two totals when [B] is a single valid record. *)
Theorem sumAmounts_app A B :
  sumAmounts (A ++ B)
  = fold_left (fun total item => (total + Expense.amount item)%float) B (sumAmounts A)
  /\ (forall b, B = [b] -> valid_expense b ->
                sumAmounts (A ++ B) = (sumAmounts A + sumAmounts B)%float).
Proof.
  split.
  - unfold sumAmounts. apply fold_left_app.
  - intros b -> Hb. rewrite (sumAmounts_single b Hb).
    unfold sumAmounts. rewrite fold_left_app. reflexivity.
Qed.

Lemma sumAmounts_app_witness :
  sumAmounts (scenario ++ [expense_of 4 0.1 "food"])
  = (sumAmounts scenario + sumAmounts [expense_of 4 0.1 "food"])%float.
Proof.
  apply (proj2 (sumAmounts_app scenario [expense_of 4 0.1 "food"])
           (expense_of 4 0.1 "food") eq_refl).
  split; [vm_compute; reflexivity | vm_compute; auto].
Defined.

(** C8 as stated fails: for the amounts 1.1 (food), 2.2 (transport) and
    3.3 (food) the entries' totals sum to (1.1 + 3.3) + 2.2, which is not
    the total (1.1 + 2.2) + 3.3 of all amounts. *)
Lemma grandTotal_differs_from_sum :
  ~ (countSum (categoryTotals mixed) = List.length mixed
     /\ grandTotal (categoryTotals mixed) = sumAmounts mixed).
Proof.
  intros [_ H]. apply (f_equal (fun x => PrimFloat.eqb x (1.1 + 2.2 + 3.3))) in H.
  vm_compute in H. discriminate.
Qed.

(** C8, amended.  The grouping partitions the records: the counts of its
    entries sum to the number of records, no category has two entries,
    every record's category has one, and an entry holds the number of its
    category's records and the left-to-right sum of their amounts.  The
    entries' totals sum to the total of all amounts when the valid records
    are all in one category. *)
Theorem categoryTotals_partition expenses :
  countSum (categoryTotals expenses) = List.length expenses
  /\ NoDup (map fst (Obj.entries (categoryTotals expenses)))
  /\ (forall e, In e expenses ->
                exists d, In (Expense.category e, d)
                            (Obj.entries (categoryTotals expenses)))
  /\ (forall k d, In (k, d) (Obj.entries (categoryTotals expenses)) ->
                  ofCategory k expenses <> []
                  /\ count d = List.length (ofCategory k expenses)
                  /\ total d = sumCategory k expenses)
  /\ (forall c, expenses <> [] -> Forall valid_expense expenses ->
                (forall e, In e expenses -> Expense.category e = c) ->
                grandTotal (categoryTotals expenses) = sumAmounts expenses).
Proof.
  split; [apply countSum_categoryTotals |].
  split; [apply categoryTotals_NoDup |].
  split; [apply categoryTotals_present |].
  split; [| intros c; apply grandTotal_single_category].
  intros k d H. apply categoryTotals_entry in H. tauto.
Qed.

Lemma categoryTotals_partition_witness :
  grandTotal (categoryTotals [expense_of 1 10 "food"; expense_of 2 5 "food"])
  = sumAmounts [expense_of 1 10 "food"; expense_of 2 5 "food"].
Proof.
  apply (proj2 (proj2 (proj2 (proj2
           (categoryTotals_partition
              [expense_of 1 10 "food"; expense_of 2 5 "food"])))) "food").
  - discriminate.
  - repeat (apply Forall_cons; [split; [vm_compute; reflexivity | vm_compute; auto] |]).
    apply Forall_nil.
  - intros e [<- | [<- | []]]; reflexivity.
Defined.

(** On the empty ledger the report is refused and names no top category.
    On a non-empty ledger of valid records (amount above zero, listed
    category) the top category is an entry of the grouping: no entry has a
    larger total, and every entry before it in iteration order has a
    strictly smaller one, so that ties go to the entry met first; the
    report ends with its line. *)
Theorem topCategory_largest_first monthYear expenses :
  generateReport monthYear [] = [console_warn [Txt "No expenses to report."]]
  /\ (expenses <> [] -> Forall valid_expense expenses ->
      (exists i, is_top (Obj.entries (categoryTotals expenses)) i
                   (topCategory (categoryTotals expenses)))
      /\ exists before,
           generateReport monthYear expenses
           = before ++ [top_line (topCategory (categoryTotals expenses))]).
Proof.
  split; [reflexivity |].
  intros Hne Hall. split.
  - apply topCategory_is_top.
    + now apply categoryTotals_nonempty.
    + now apply categoryTotals_positive.
  - unfold generateReport. destruct expenses as [| e l]; [contradiction |].
    cbn [List.length Nat.eqb].
    eexists. rewrite !app_assoc.
    match goal with
    | |- ?p ++ [?a; ?b; ?c; ?t] = _ =>
        change (p ++ [a; b; c; t]) with (p ++ [a; b; c] ++ [t])
    end.
    rewrite app_assoc. reflexivity.
Qed.

Lemma topCategory_largest_first_witness :
  (exists i, is_top (Obj.entries (categoryTotals scenario)) i
               (topCategory (categoryTotals scenario)))
  /\ exists before,
       generateReport "May 2025" scenario
       = before ++ [top_line (topCategory (categoryTotals scenario))].
Proof.
  apply (proj2 (topCategory_largest_first "May 2025" scenario)).
  - vm_compute. discriminate.
  - vm_compute.
    repeat (apply Forall_cons; [split; [reflexivity | auto 10] |]).
    apply Forall_nil.
Defined.

(** C9 (not met by the script).  The validator lets a NaN amount through,
    and [NaN > 0] is false, so such an entry never replaces the initial
    value of the reduction.  On the reachable, non-empty ledger left by
    [addExpense(NaN, "food", "lunch")] the grouping has the single entry
    "food", and yet the top category is the initial value, an empty label
    with total 0: it is no entry of the grouping at any position, and it
    is what the last line of the report shows. *)
Theorem top_category_is_no_entry :
  reachable (run [add nan "food" "lunch"])
  /\ run [add nan "food" "lunch"] <> []
  /\ Obj.entries (categoryTotals (run [add nan "food" "lunch"]))
     = [("food", {| total := nan; count := 1 |})]
  /\ topCategory (categoryTotals (run [add nan "food" "lunch"]))
     = {| top_category := ""; top_total := zero |}
  /\ (forall i, ~ is_top (Obj.entries (categoryTotals (run [add nan "food" "lunch"])))
                    i (topCategory (categoryTotals (run [add nan "food" "lunch"]))))
  /\ exists before,
       generateReport "May 2025" (run [add nan "food" "lunch"])
       = before ++ [top_line {| top_category := ""; top_total := zero |}].
Proof.
  assert (Hent : Obj.entries (categoryTotals (run [add nan "food" "lunch"]))
                 = [("food", {| total := nan; count := 1 |})])
    by (vm_compute; reflexivity).
  assert (Htop : topCategory (categoryTotals (run [add nan "food" "lunch"]))
                 = {| top_category := ""; top_total := zero |})
    by (vm_compute; reflexivity).
  split; [exists [add nan "food" "lunch"]; reflexivity |].
  split; [vm_compute; discriminate |].
  split; [exact Hent |].
  split; [exact Htop |].
  split.
  - intros i (c & d & Hnth & Heq & _). rewrite Hent in Hnth. rewrite Htop in Heq.
    destruct i as [| i]; cbn [nth_error] in Hnth.
    + injection Hnth as <- <-. discriminate Heq.
    + destruct i; discriminate Hnth.
  - eexists. vm_compute.
    match goal with
    | |- ?a :: ?b :: ?c :: ?d :: ?e :: ?f :: [?t] = _ =>
        change (a :: b :: c :: d :: e :: f :: [t]) with ([a; b; c; d; e; f] ++ [t])
    end.
    reflexivity.
Qed.

(** C10 as stated fails: on the empty ledger [calculateTotal] prints no
    number at all, so it does not produce the number 0. *)
Lemma calculateTotal_empty_no_number :
  ~ exists l x, In l (calculateTotal "" []) /\ In (Num x) (text l).
Proof.
  intros (l & x & Hl & Hx). cbn in Hl. destruct Hl as [<- | []].
  cbn in Hx. destruct Hx as [Hx | []]. discriminate.
Qed.

(** C10, amended.  On the empty ledger [calculateTotal] prints only the
    informational line "No expenses found. Please add some." (with
    [console.log], not as a warning or an error) and no total, and
    [generateReport] prints only the warning "No expenses to report.", so
    that no average is computed. *)
Theorem empty_ledger_reports category monthYear :
  calculateTotal category []
  = [console_log [Txt "No expenses found. Please add some."]]
  /\ generateReport monthYear [] = [console_warn [Txt "No expenses to report."]].
Proof. split; reflexivity. Qed.

(** * Further properties of the script *)

(** The validator succeeds exactly on a Number that is above zero or NaN,
    a listed category and a string description. *)
Theorem checkValidity_succeeds_iff a c d :
  fst (checkValidity a c d) = true
  <-> (exists x, a = VNumber x
                 /\ (PrimFloat.ltb zero x = true \/ Prim2SF x = S754_nan))
      /\ categories_includes c = true
      /\ (exists s, d = VString s).
Proof.
  rewrite checkValidity_verdict, !andb_true_iff, negb_true_iff, !String.eqb_eq,
    typeof_number, typeof_string.
  split.
  - intros [[[Hle (x & ->)] Hc] Hd]. repeat split; auto.
    exists x. split; auto. now apply leb_zero_false.
  - intros [(x & -> & Hx) [Hc Hd]]. repeat split; eauto.
    unfold le_number. cbn [ToNumber]. now apply leb_zero_false.
Qed.

(** A valid call appends exactly one record, with the given fields and the
    id [expenses.length + 1], and prints that id. *)
Theorem addExpense_appends now a c d expenses :
  valid_input a c d ->
  addExpense now a c d expenses
  = (expenses ++ [ {| Expense.id := List.length expenses + 1;
                      Expense.amount := number_of a;
                      Expense.category := string_of c;
                      Expense.description := string_of d;
                      Expense.date := now |} ],
     [console_log [Txt "Expense added successfully. ID: ";
                   Int (List.length expenses + 1)]]).
Proof. apply addExpense_valid_eq. Qed.

Lemma addExpense_appends_witness :
  addExpense 7 (VNumber 12) (VString "other") (VString "gift") scenario
  = (scenario ++ [ {| Expense.id := List.length scenario + 1;
                      Expense.amount := number_of (VNumber 12);
                      Expense.category := string_of (VString "other");
                      Expense.description := string_of (VString "gift");
                      Expense.date := 7 |} ],
     [console_log [Txt "Expense added successfully. ID: ";
                   Int (List.length scenario + 1)]]).
Proof.
  apply (addExpense_appends 7 (VNumber 12) (VString "other") (VString "gift") scenario).
  split; [exists 12%float; split; vm_compute; reflexivity |].
  split; [vm_compute; reflexivity | exists "gift"; reflexivity].
Defined.

(** When no stored record has the id [expenses.length + 1], looking the
    reported id up after a valid addition yields the record just added. *)
Theorem addExpense_lookup now a c d expenses :
  valid_input a c d ->
  findById (Number_of_nat (List.length expenses + 1)) expenses = None ->
  findById (Number_of_nat (List.length expenses + 1))
    (fst (addExpense now a c d expenses))
  = Some {| Expense.id := List.length expenses + 1;
            Expense.amount := number_of a;
            Expense.category := string_of c;
            Expense.description := string_of d;
            Expense.date := now |}.
Proof.
  intros Hv Hfresh. rewrite addExpense_valid_eq by assumption. cbn [fst].
  apply find_app_fresh; auto. apply Number_of_nat_eq.
Qed.

Lemma addExpense_lookup_witness :
  findById (Number_of_nat (List.length scenario + 1))
    (fst (addExpense 7 (VNumber 12) (VString "other") (VString "gift") scenario))
  = Some {| Expense.id := List.length scenario + 1;
            Expense.amount := number_of (VNumber 12);
            Expense.category := string_of (VString "other");
            Expense.description := string_of (VString "gift");
            Expense.date := 7 |}.
Proof.
  apply (addExpense_lookup 7 (VNumber 12) (VString "other") (VString "gift") scenario).
  - split; [exists 12%float; split; vm_compute; reflexivity |].
    split; [vm_compute; reflexivity | exists "gift"; reflexivity].
  - vm_compute. reflexivity.
Defined.

(** [removeExpense] with a Number no record has changes nothing and prints
    "not found"; with a Number some record has it removes exactly one
    record and prints the removal. *)
Theorem removeExpense_length x expenses :
  (findById x expenses = None ->
   removeExpense (VNumber x) expenses
   = (expenses, [console_log [Txt "Expense with ID "; Num x; Txt " not found."]]))
  /\ (findById x expenses <> None ->
      List.length (fst (removeExpense (VNumber x) expenses)) + 1
      = List.length expenses
      /\ snd (removeExpense (VNumber x) expenses)
         = [console_log [Txt "Expense with ID "; Num x;
                         Txt " removed successfully!"]]).
Proof.
  unfold findById. rewrite findIndex_find. unfold removeExpense.
  cbn [typeof String.eqb Ascii.eqb Bool.eqb negb number_of].
  destruct (findIndex (has_id x) expenses) as [i |] eqn:Ei.
  - apply findIndex_Some in Ei as (e & He & _). rewrite He. cbn [fst snd].
    split; [discriminate |]. intros _.
    split; [eapply splice1_length; eauto | reflexivity].
  - split; [reflexivity | congruence].
Qed.

(** As long as no removal is called, the ids in the ledger are 1, 2, ...
    in order: they are pairwise distinct. *)
Theorem ids_without_removal calls :
  forallb is_add calls = true ->
  map Expense.id (run calls) = seq 1 (List.length (run calls)).
Proof. intros H. apply ids_fold_adds; auto. Qed.

Lemma ids_without_removal_witness :
  map Expense.id (run [add 10 "food" "lunch"; add (-1) "food" "x"; add 5 "other" "y"])
  = seq 1 (List.length
             (run [add 10 "food" "lunch"; add (-1) "food" "x"; add 5 "other" "y"])).
Proof.
  apply (ids_without_removal
           [add 10 "food" "lunch"; add (-1) "food" "x"; add 5 "other" "y"]).
  vm_compute. reflexivity.
Defined.

(** The entries of the grouping are listed in the order in which their
    categories first occur in the ledger. *)
Theorem categoryTotals_order expenses :
  map fst (Obj.entries (categoryTotals expenses))
  = firsts (map Expense.category expenses).
Proof. unfold categoryTotals, firsts. apply keys_fold_tally. Qed.

(** A NaN amount, which the validator lets through, never exceeds the
    running maximum: the report then names the sentinel of line 238, an
    empty label with total 0, as its top category. *)
Theorem topCategory_sentinel_on_NaN :
  List.length (run [add nan "food" "lunch"]) = 1
  /\ topCategory (categoryTotals (run [add nan "food" "lunch"]))
     = {| top_category := ""; top_total := zero |}.
Proof. split; vm_compute; reflexivity. Qed.

(** The scenario of the specification: total 40.5, food 15 in 2 records,
    transport 25.5 in 1 record, top category transport. *)
Theorem scenario_report :
  calculateTotal "" scenario = [console_log [Txt "Total: "; Num 40.5]]
  /\ Obj.entries (categoryTotals scenario)
     = [("food", {| total := 15; count := 2 |});
        ("transport", {| total := 25.5; count := 1 |})]
  /\ topCategory (categoryTotals scenario)
     = {| top_category := "transport"; top_total := 25.5 |}.
Proof. repeat split; vm_compute; reflexivity. Qed.

(** * The rest of the script: invariant, removal, viewers, totals *)

(** ** NaN in binary64 arithmetic *)

Lemma Prim2SF_nan : Prim2SF nan = S754_nan.
Proof. reflexivity. Qed.

Lemma add_nan_r x : (x + nan)%float = nan.
Proof.
  apply Prim2SF_inj. rewrite add_spec, Prim2SF_nan.
  destruct (Prim2SF x) as [? | ? | | ? ? ?]; reflexivity.
Qed.

Lemma add_nan_l x : (nan + x)%float = nan.
Proof. apply Prim2SF_inj. rewrite add_spec, Prim2SF_nan. reflexivity. Qed.

Lemma eqb_nan_r x : PrimFloat.eqb x nan = false.
Proof.
  rewrite eqb_spec, Prim2SF_nan. unfold SFeqb.
  destruct (Prim2SF x) as [? | ? | | ? ? ?]; reflexivity.
Qed.

Lemma ltb_nan_r x : PrimFloat.ltb x nan = false.
Proof.
  rewrite ltb_spec, Prim2SF_nan. unfold SFltb.
  destruct (Prim2SF x) as [? | ? | | ? ? ?]; reflexivity.
Qed.

(** ** The ledger invariant *)

Lemma categories_includes_In s :
  categories_includes (VString s) = true <-> In s categories.
Proof.
  cbn [categories_includes]. rewrite existsb_exists. split.
  - intros (k & Hk & E). apply String.eqb_eq in E. now subst.
  - intros H. exists s. split; auto. apply String.eqb_refl.
Qed.

Lemma splice1_In {A} (l : list A) : forall i x, In x (splice1 i l) -> In x l.
Proof.
  induction l as [| y l IH]; intros [| i] x; cbn; auto.
  intros [-> | H]; eauto.
Qed.

Lemma checkValidity_true_shape a c d :
  fst (checkValidity a c d) = true ->
  exists x sc sd,
    a = VNumber x /\ c = VString sc /\ d = VString sd
    /\ PrimFloat.leb x zero = false /\ In sc categories.
Proof.
  rewrite checkValidity_verdict, !andb_true_iff, negb_true_iff, !String.eqb_eq,
    typeof_number, typeof_string.
  intros [[[Hle (x & ->)] Hc] (sd & ->)].
  destruct c as [| | | | sc]; try discriminate.
  exists x, sc, sd. repeat split; auto. now apply categories_includes_In.
Qed.

Lemma addExpense_stored_ok now a c d expenses :
  Forall stored_ok expenses ->
  Forall stored_ok (fst (addExpense now a c d expenses)).
Proof.
  intros Hall. unfold addExpense.
  destruct (checkValidity a c d) as [ok out] eqn:Hcv.
  destruct ok; cbn [fst]; auto.
  apply Forall_app. split; auto. constructor; [| constructor].
  assert (Hv : fst (checkValidity a c d) = true) by (rewrite Hcv; reflexivity).
  apply checkValidity_true_shape in Hv as (x & sc & sd & -> & -> & -> & Hx & Hc).
  unfold stored_ok. cbn [Expense.id Expense.category Expense.amount number_of string_of].
  repeat split; auto. lia.
Qed.

Lemma removeExpense_stored_ok i expenses :
  Forall stored_ok expenses ->
  Forall stored_ok (fst (removeExpense i expenses)).
Proof.
  intros Hall. unfold removeExpense.
  destruct (negb (String.eqb (typeof i) "number")); cbn [fst]; auto.
  destruct (findIndex (has_id (number_of i)) expenses); cbn [fst]; auto.
  rewrite Forall_forall in *. intros e He. apply Hall. eapply splice1_In; eauto.
Qed.

Lemma fold_step_stored_ok calls : forall expenses,
  Forall stored_ok expenses -> Forall stored_ok (fold_left step calls expenses).
Proof.
  induction calls as [| c calls IH]; intros expenses Hall; cbn [fold_left]; auto.
  apply IH. destruct c; cbn [step];
    auto using addExpense_stored_ok, removeExpense_stored_ok.
Qed.

(** ** Removal *)

Lemma findIndex_split {A} (p : A -> bool) l : forall i,
  findIndex p l = Some i ->
  exists before e after,
    l = before ++ e :: after
    /\ List.length before = i
    /\ p e = true
    /\ (forall r, In r before -> p r = false).
Proof.
  induction l as [| y l IH]; intros i; cbn [findIndex]; [discriminate |].
  destruct (p y) eqn:E.
  - intros [= <-]. exists [], y, l. repeat split; auto. intros r [].
  - destruct (findIndex p l) as [j |]; cbn [option_map]; [| discriminate].
    intros [= <-]. destruct (IH j eq_refl) as (b & e & a & -> & Hlen & He & Hb).
    exists (y :: b), e, a. cbn [List.length app]. repeat split; auto.
    intros r [<- | Hr]; auto.
Qed.

Lemma splice1_app {A} (before : list A) e after :
  splice1 (List.length before) (before ++ e :: after) = before ++ after.
Proof. induction before as [| y b IH]; cbn; [| rewrite IH]; reflexivity. Qed.

Lemma findIndex_app_fresh {A} (p : A -> bool) l x :
  findIndex p l = None -> p x = true -> findIndex p (l ++ [x]) = Some (List.length l).
Proof.
  induction l as [| y l IH]; cbn; [intros _ ->; reflexivity |].
  destruct (p y); [discriminate |].
  destruct (findIndex p l) eqn:E; [discriminate |]. intros _ Hx.
  rewrite IH by auto. reflexivity.
Qed.

Lemma findIndex_all_false {A} (p : A -> bool) l :
  (forall x, p x = false) -> findIndex p l = None.
Proof.
  intros H. induction l as [| y l IH]; cbn; auto. now rewrite H, IH.
Qed.

(** ** Totals of a category *)

Lemma filter_strictEq s expenses :
  filter (fun expense => strictEq_string (Expense.category expense) (VString s)) expenses
  = ofCategory s expenses.
Proof. reflexivity. Qed.

(** Adding the amounts of the records of a category is the same
    computation as adding, over the whole ledger, the amounts that pass
    the category test. *)
Lemma fold_filter_category s expenses : forall t,
  fold_left (fun sum expense => (sum + Expense.amount expense)%float)
    (ofCategory s expenses) t
  = fold_left (condAdd s) expenses t.
Proof.
  induction expenses as [| e l IH]; intros t; cbn [ofCategory filter fold_left]; auto.
  unfold condAdd at 2.
  destruct (String.eqb (Expense.category e) s); cbn [fold_left]; apply IH.
Qed.

Lemma sumCategory_ofCategory s expenses :
  sumAmounts (ofCategory s expenses) = sumCategory s expenses.
Proof. unfold sumAmounts. rewrite fold_filter_category. reflexivity. Qed.

Lemma length_pos_nonempty {A} (l : list A) :
  Nat.ltb 0 (List.length l) = match l with [] => false | _ :: _ => true end.
Proof. destruct l; reflexivity. Qed.

Lemma In_categories_nonempty s : In s categories -> Nat.ltb 0 (String.length s) = true.
Proof.
  cbn. intros H. repeat (destruct H as [<- | H]; [reflexivity |]). destruct H.
Qed.

Lemma calculateTotal_category category expenses :
  expenses <> [] -> Nat.ltb 0 (String.length category) = true ->
  calculateTotal category expenses
  = [console_log [Txt ("Total for " ++ category ++ ": ")%string;
                  Num (sumCategory category expenses)]].
Proof.
  intros Hne Hc. unfold calculateTotal. rewrite Hc.
  destruct expenses; [contradiction | reflexivity].
Qed.

(** ** Ledger *)

(** Whatever the calls, every record in the ledger has an id from 1 on, a
    listed category, and an amount that is above zero or NaN. *)
Theorem run_stored_ok calls :
  Forall (fun e => 1 <= Expense.id e
                   /\ In (Expense.category e) categories
                   /\ (PrimFloat.ltb zero (Expense.amount e) = true
                       \/ Expense.amount e = nan))
         (run calls).
Proof.
  assert (H : Forall stored_ok (run calls))
    by (apply fold_step_stored_ok; constructor).
  eapply Forall_impl; [| exact H].
  intros e (Hid & Hc & Ha). repeat split; auto.
  apply leb_zero_false in Ha as [Ha | Ha]; auto.
  right. apply Prim2SF_inj. now rewrite Ha, Prim2SF_nan.
Qed.

Lemma fold_add_nan l :
  fold_left (fun total item => (total + Expense.amount item)%float) l nan = nan.
Proof. induction l as [| e l IH]; cbn [fold_left]; auto. now rewrite add_nan_l. Qed.

(** One NaN amount anywhere in the ledger makes the overall total NaN:
    that is what [calculateTotal] then prints. *)
Theorem sumAmounts_nan expenses e :
  In e expenses -> Expense.amount e = nan ->
  sumAmounts expenses = nan
  /\ calculateTotal "" expenses = [console_log [Txt "Total: "; Num nan]].
Proof.
  intros Hin He.
  assert (Hsum : sumAmounts expenses = nan).
  { unfold sumAmounts. apply in_split in Hin as (l1 & l2 & ->).
    rewrite fold_left_app. cbn [fold_left]. rewrite He, add_nan_r. apply fold_add_nan. }
  split; auto.
  rewrite calculateTotal_nonempty by (destruct expenses; [destruct Hin | discriminate]).
  now rewrite Hsum.
Qed.

Lemma sumAmounts_nan_witness :
  sumAmounts (run [add 10 "food" "a"; add nan "food" "b"; add 5 "other" "c"]) = nan
  /\ calculateTotal "" (run [add 10 "food" "a"; add nan "food" "b"; add 5 "other" "c"])
     = [console_log [Txt "Total: "; Num nan]].
Proof.
  apply (sumAmounts_nan (run [add 10 "food" "a"; add nan "food" "b"; add 5 "other" "c"])
           {| Expense.id := 2; Expense.amount := nan; Expense.category := "food";
              Expense.description := "b"; Expense.date := 0 |}).
  - vm_compute. auto.
  - reflexivity.
Defined.

(** [removeExpense] with an id that is not a Number, or with NaN, leaves
    every ledger as it is. *)
Theorem removeExpense_ignores id expenses :
  typeof id <> "number" \/ id = VNumber nan ->
  fst (removeExpense id expenses) = expenses.
Proof.
  intros [Hty | ->]; unfold removeExpense.
  - apply String.eqb_neq in Hty. rewrite Hty. reflexivity.
  - cbn [typeof number_of].
    rewrite (findIndex_all_false (has_id nan)); [reflexivity |].
    intros e. apply eqb_nan_r.
Qed.

Lemma removeExpense_ignores_witness :
  fst (removeExpense (VString "1") scenario) = scenario.
Proof.
  apply (removeExpense_ignores (VString "1") scenario).
  left. vm_compute. discriminate.
Defined.

(** [removeExpense] takes out the first record with the given id and keeps
    all the others, in their order. *)
Theorem removeExpense_first x expenses e :
  findById x expenses = Some e ->
  exists before after,
    expenses = before ++ e :: after
    /\ (forall r, In r before -> has_id x r = false)
    /\ fst (removeExpense (VNumber x) expenses) = before ++ after.
Proof.
  unfold findById. rewrite findIndex_find. unfold removeExpense.
  cbn [typeof String.eqb Ascii.eqb Bool.eqb negb number_of].
  destruct (findIndex (has_id x) expenses) as [i |] eqn:Ei; [| discriminate].
  destruct (findIndex_split _ _ _ Ei) as (b & e' & a & -> & <- & He' & Hb).
  rewrite nth_error_app2, Nat.sub_diag by lia. cbn [nth_error]. intros [= <-].
  exists b, a. cbn [fst]. repeat split; auto. apply splice1_app.
Qed.

Lemma removeExpense_first_witness :
  exists before after,
    scenario
    = before ++ {| Expense.id := 2; Expense.amount := 25.5;
                   Expense.category := "transport";
                   Expense.description := "taxi"; Expense.date := 0 |} :: after
    /\ (forall r, In r before -> has_id 2 r = false)
    /\ fst (removeExpense (VNumber 2) scenario) = before ++ after.
Proof.
  apply (removeExpense_first 2 scenario).
  vm_compute. reflexivity.
Defined.

(** Adding a valid expense and then removing the id it was given restores
    the ledger, when no stored record already had that id. *)
Theorem add_then_remove now a c d expenses :
  valid_input a c d ->
  findById (Number_of_nat (List.length expenses + 1)) expenses = None ->
  fst (removeExpense (VNumber (Number_of_nat (List.length expenses + 1)))
         (fst (addExpense now a c d expenses)))
  = expenses.
Proof.
  intros Hv Hfresh. rewrite addExpense_valid_eq by assumption. cbn [fst].
  unfold removeExpense. cbn [typeof String.eqb Ascii.eqb Bool.eqb negb number_of].
  apply findIndex_None in Hfresh.
  rewrite findIndex_app_fresh by (auto; apply Number_of_nat_eq).
  cbn [fst]. rewrite splice1_app. apply app_nil_r.
Qed.

Lemma add_then_remove_witness :
  fst (removeExpense (VNumber (Number_of_nat (List.length scenario + 1)))
         (fst (addExpense 7 (VNumber 12) (VString "other") (VString "gift") scenario)))
  = scenario.
Proof.
  apply (add_then_remove 7 (VNumber 12) (VString "other") (VString "gift") scenario).
  - split; [exists 12%float; split; vm_compute; reflexivity |].
    split; [vm_compute; reflexivity | exists "gift"; reflexivity].
  - vm_compute. reflexivity.
Defined.

(** ** Viewers *)

(** The two listing functions print the same lines on every ledger: the
    notice on the empty one, else one line per record in ledger order. *)
Theorem viewAllExpenses_allExpenses expenses :
  viewAllExpenses expenses = allExpenses expenses
  /\ allExpenses expenses
     = match expenses with
       | [] => [console_log [Txt "No expenses found. Please add some."]]
       | _ :: _ => map expense_line expenses
       end.
Proof. split; [reflexivity | destruct expenses; reflexivity]. Qed.

(** A category that is not one of the listed strings is refused with the
    warning alone, whatever the ledger holds. *)
Theorem viewByCategory_unlisted category expenses :
  (forall s, category = VString s -> ~ In s categories) ->
  viewByCategory category expenses
  = [console_warn [Txt ("Category must be one of " ++ categories_joined)%string]].
Proof.
  intros H. unfold viewByCategory.
  destruct (categories_includes category) eqn:E; [| reflexivity].
  destruct category as [| | | | s]; try discriminate.
  apply categories_includes_In in E. destruct (H s eq_refl E).
Qed.

Lemma viewByCategory_unlisted_witness :
  viewByCategory (VString "Food") scenario
  = [console_warn [Txt ("Category must be one of " ++ categories_joined)%string]].
Proof.
  apply (viewByCategory_unlisted (VString "Food") scenario).
  intros s [= <-]. vm_compute. intuition discriminate.
Defined.

(** For a listed category, [viewByCategory] prints the records of that
    category in ledger order and then a total, and that total is the
    number [calculateTotal] prints for the category; with no such record
    it prints the notice alone. *)
Theorem viewByCategory_listed s expenses :
  In s categories ->
  viewByCategory (VString s) expenses
  = match ofCategory s expenses with
    | [] => [console_log [Txt "No expenses found for category: "; Txt s]]
    | _ :: _ =>
        map expense_line (ofCategory s expenses)
        ++ [console_log [Txt " Total for "; Txt s; Txt ": $ ";
                         Num (sumCategory s expenses)]]
    end
  /\ (expenses <> [] ->
      calculateTotal s expenses
      = [console_log [Txt ("Total for " ++ s ++ ": ")%string;
                      Num (sumCategory s expenses)]]).
Proof.
  intros Hs. split.
  - unfold viewByCategory.
    rewrite (proj2 (categories_includes_In s) Hs). cbn [negb string_of].
    rewrite filter_strictEq, length_pos_nonempty, fold_filter_category.
    destruct (ofCategory s expenses); reflexivity.
  - intros Hne. apply calculateTotal_category; auto using In_categories_nonempty.
Qed.

Lemma viewByCategory_listed_witness :
  viewByCategory (VString "food") scenario
  = match ofCategory "food" scenario with
    | [] => [console_log [Txt "No expenses found for category: "; Txt "food"]]
    | _ :: _ =>
        map expense_line (ofCategory "food" scenario)
        ++ [console_log [Txt " Total for "; Txt "food"; Txt ": $ ";
                         Num (sumCategory "food" scenario)]]
    end
  /\ (scenario <> [] ->
      calculateTotal "food" scenario
      = [console_log [Txt ("Total for " ++ "food" ++ ": ")%string;
                      Num (sumCategory "food" scenario)]]).
Proof.
  apply (viewByCategory_listed "food" scenario).
  vm_compute. auto.
Defined.

(** ** Totals and report *)

Lemma ofCategory_unlisted calls category :
  ~ In category categories -> ofCategory category (run calls) = [].
Proof.
  intros Hc. pose proof (fold_step_stored_ok calls [] (Forall_nil _)) as Hall.
  fold (run calls) in Hall. unfold ofCategory.
  induction (run calls) as [| e l IH]; cbn [filter]; auto.
  inversion Hall as [| ? ? (_ & He & _) Hl]; subst.
  destruct (String.eqb (Expense.category e) category) eqn:E; auto.
  apply String.eqb_eq in E. subst. contradiction.
Qed.

Lemma nonempty_string_length s : s <> "" -> Nat.ltb 0 (String.length s) = true.
Proof. destruct s; [contradiction | reflexivity]. Qed.

(** [calculateTotal] does not check its category: on a non-empty ledger a
    category that is not listed gets the total 0, not a diagnostic. *)
Theorem calculateTotal_unlisted calls category :
  run calls <> [] -> category <> "" -> ~ In category categories ->
  calculateTotal category (run calls)
  = [console_log [Txt ("Total for " ++ category ++ ": ")%string; Num zero]].
Proof.
  intros Hne Hc Hnot.
  rewrite calculateTotal_category by auto using nonempty_string_length.
  rewrite <- sumCategory_ofCategory, ofCategory_unlisted by assumption.
  reflexivity.
Qed.

Lemma calculateTotal_unlisted_witness :
  calculateTotal "groceries"
    (run [add 10 "food" "lunch"; add 25.5 "transport" "taxi"])
  = [console_log [Txt ("Total for " ++ "groceries" ++ ": ")%string; Num zero]].
Proof.
  apply (calculateTotal_unlisted
           [add 10 "food" "lunch"; add 25.5 "transport" "taxi"] "groceries").
  - vm_compute. discriminate.
  - discriminate.
  - vm_compute. intuition discriminate.
Defined.

(** Each category line of the report agrees with [calculateTotal]: for an
    entry of the grouping of a reachable ledger, the category is a listed
    one and [calculateTotal] prints for it the total the entry holds. *)
Theorem report_entry_total calls k d :
  In (k, d) (Obj.entries (categoryTotals (run calls))) ->
  In k categories
  /\ calculateTotal k (run calls)
     = [console_log [Txt ("Total for " ++ k ++ ": ")%string; Num (total d)]].
Proof.
  intros Hin. apply categoryTotals_entry in Hin as (Hne & Htot & _).
  assert (Hk : In k categories).
  { destruct (in_dec string_dec k categories) as [H | H]; auto.
    exfalso. apply Hne. now apply ofCategory_unlisted. }
  split; auto.
  rewrite calculateTotal_category, Htot; auto using In_categories_nonempty.
  intros E. apply Hne. rewrite E. reflexivity.
Qed.

Lemma report_entry_total_witness :
  In "food" categories
  /\ calculateTotal "food"
       (run [add 10 "food" "lunch"; add 25.5 "transport" "taxi"; add 5 "food" "coffee"])
     = [console_log [Txt ("Total for " ++ "food" ++ ": ")%string;
                     Num (total {| total := 15; count := 2 |})]].
Proof.
  apply (report_entry_total
           [add 10 "food" "lunch"; add 25.5 "transport" "taxi"; add 5 "food" "coffee"]
           "food" {| total := 15; count := 2 |}).
  vm_compute. auto.
Defined.

Lemma categoryTotals_keys_listed calls :
  incl (map fst (Obj.entries (categoryTotals (run calls)))) categories.
Proof.
  intros k Hk. apply in_map_iff in Hk as ([k' d] & <- & Hin). cbn [fst].
  apply categoryTotals_entry in Hin as (Hne & _).
  destruct (in_dec string_dec k' categories) as [H | H]; auto.
  exfalso. apply Hne. now apply ofCategory_unlisted.
Qed.

(** The report of a reachable, non-empty ledger has between one and seven
    category lines, for listed categories only, and six lines around them. *)
Theorem generateReport_lines monthYear calls :
  run calls <> [] ->
  List.length (generateReport monthYear (run calls))
  = List.length (Obj.entries (categoryTotals (run calls))) + 6
  /\ 1 <= List.length (Obj.entries (categoryTotals (run calls))) <= 7
  /\ incl (map fst (Obj.entries (categoryTotals (run calls)))) categories.
Proof.
  intros Hne. split; [| split; [split |]].
  - unfold generateReport. destruct (run calls) as [| e l]; [contradiction |].
    cbn [List.length Nat.eqb]. rewrite !length_app, length_map. cbn [List.length]. lia.
  - pose proof (categoryTotals_nonempty (run calls) Hne) as H.
    unfold Obj.entries. destruct (categoryTotals (run calls)); [contradiction | cbn; lia].
  - pose proof (NoDup_incl_length (categoryTotals_NoDup (run calls))
                  (categoryTotals_keys_listed calls)) as H.
    rewrite length_map in H. exact H.
  - apply categoryTotals_keys_listed.
Qed.

Lemma generateReport_lines_witness :
  List.length (generateReport "May 2025"
                 (run [add 10 "food" "lunch"; add 25.5 "transport" "taxi"]))
  = List.length (Obj.entries (categoryTotals
                   (run [add 10 "food" "lunch"; add 25.5 "transport" "taxi"]))) + 6
  /\ 1 <= List.length (Obj.entries (categoryTotals
                   (run [add 10 "food" "lunch"; add 25.5 "transport" "taxi"]))) <= 7
  /\ incl (map fst (Obj.entries (categoryTotals
                   (run [add 10 "food" "lunch"; add 25.5 "transport" "taxi"]))))
          categories.
Proof.
  apply (generateReport_lines "May 2025"
           [add 10 "food" "lunch"; add 25.5 "transport" "taxi"]).
  vm_compute. discriminate.
Defined.

Lemma fold_grand_positive entries : forall t,
  Forall (fun entry : string * CategoryData =>
            PrimFloat.ltb zero (total (snd entry)) = true) entries ->
  PrimFloat.ltb zero t = true ->
  PrimFloat.ltb zero
    (fold_left (fun g '(_, data) => (g + total data)%float) entries t) = true.
Proof.
  induction entries as [| [k d] l IH]; intros t Hall Ht; cbn [fold_left]; auto.
  inversion Hall as [| ? ? Hd Hl]; subst. cbn [snd] in Hd.
  apply IH; auto using add_positive.
Qed.

(** On a non-empty ledger of valid records every total the script prints
    is a number above zero: the overall total, the total of each entry of
    the grouping, and the report's grand total. *)
Theorem totals_positive expenses :
  expenses <> [] -> Forall valid_expense expenses ->
  PrimFloat.ltb zero (sumAmounts expenses) = true
  /\ (forall k d, In (k, d) (Obj.entries (categoryTotals expenses)) ->
                  PrimFloat.ltb zero (total d) = true)
  /\ PrimFloat.ltb zero (grandTotal (categoryTotals expenses)) = true.
Proof.
  intros Hne Hall.
  pose proof (categoryTotals_positive expenses Hall) as Hpos.
  split; [now apply sumAmounts_positive |]. split.
  - intros k d Hin. rewrite Forall_forall in Hpos. apply (Hpos (k, d) Hin).
  - pose proof (categoryTotals_nonempty expenses Hne) as Hent.
    unfold grandTotal, Obj.entries.
    destruct (categoryTotals expenses) as [| [k d] l]; [contradiction |].
    inversion Hpos as [| ? ? Hd Hl]; subst. cbn [snd] in Hd.
    cbn [fold_left]. apply fold_grand_positive; auto.
    now rewrite zero_add_positive.
Qed.

Lemma totals_positive_witness :
  PrimFloat.ltb zero (sumAmounts scenario) = true
  /\ (forall k d, In (k, d) (Obj.entries (categoryTotals scenario)) ->
                  PrimFloat.ltb zero (total d) = true)
  /\ PrimFloat.ltb zero (grandTotal (categoryTotals scenario)) = true.
Proof.
  apply (totals_positive scenario).
  - vm_compute. discriminate.
  - vm_compute.
    repeat (apply Forall_cons; [split; [reflexivity | auto 10] |]).
    apply Forall_nil.
Defined.

Lemma fold_condAdd_nan k l :
  (forall e, In e l -> Expense.amount e = nan) ->
  fold_left (condAdd k) l nan = nan.
Proof.
  induction l as [| e l IH]; intros Hall; cbn [fold_left]; auto.
  unfold condAdd at 2. destruct (String.eqb (Expense.category e) k).
  - rewrite add_nan_l. apply IH. intros; apply Hall; now right.
  - apply IH. intros; apply Hall; now right.
Qed.

Lemma sumCategory_all_nan k l :
  (forall e, In e l -> Expense.amount e = nan) ->
  ofCategory k l <> [] -> sumCategory k l = nan.
Proof.
  rewrite sumCategory_fold.
  induction l as [| e l IH]; intros Hall Hne; [contradiction |].
  cbn [fold_left ofCategory filter] in *. unfold condAdd at 2.
  destruct (String.eqb (Expense.category e) k).
  - rewrite (Hall e) by now left. rewrite add_nan_r.
    apply fold_condAdd_nan. intros; apply Hall; now right.
  - apply IH; auto. intros; apply Hall; now right.
Qed.

Lemma fold_pick_nan entries : forall max,
  (forall k d, In (k, d) entries -> total d = nan) ->
  fold_left pick entries max = max.
Proof.
  induction entries as [| [k d] l IH]; intros max Hall; cbn [fold_left]; auto.
  cbn [pick]. rewrite (Hall k d) by now left. rewrite ltb_nan_r.
  apply IH. intros; eapply Hall; right; eauto.
Qed.

Lemma generateReport_ends monthYear expenses :
  expenses <> [] ->
  exists before,
    generateReport monthYear expenses
    = before ++ [top_line (topCategory (categoryTotals expenses))].
Proof.
  intros Hne. unfold generateReport. destruct expenses as [| e l]; [contradiction |].
  cbn [List.length Nat.eqb].
  eexists. rewrite !app_assoc.
  match goal with
  | |- ?p ++ [?a; ?b; ?c; ?t] = _ =>
      change (p ++ [a; b; c; t]) with (p ++ [a; b; c] ++ [t])
  end.
  rewrite app_assoc. reflexivity.
Qed.

(** When every amount in the ledger is NaN, no entry exceeds the running
    maximum and the report names the initial value of the reduction, an
    empty label with total 0, as its top category. *)
Theorem topCategory_all_nan monthYear expenses :
  expenses <> [] ->
  (forall e, In e expenses -> Expense.amount e = nan) ->
  exists before,
    generateReport monthYear expenses
    = before ++ [top_line {| top_category := ""; top_total := zero |}].
Proof.
  intros Hne Hall.
  destruct (generateReport_ends monthYear expenses Hne) as [before Hb].
  exists before. rewrite Hb. do 3 f_equal.
  rewrite topCategory_fold. apply fold_pick_nan.
  intros k d Hin. apply categoryTotals_entry in Hin as (Hk & -> & _).
  now apply sumCategory_all_nan.
Qed.

Lemma topCategory_all_nan_witness :
  exists before,
    generateReport "May 2025" (run [add nan "food" "a"; add nan "other" "b"])
    = before ++ [top_line {| top_category := ""; top_total := zero |}].
Proof.
  apply (topCategory_all_nan "May 2025" (run [add nan "food" "a"; add nan "other" "b"])).
  - vm_compute. discriminate.
  - vm_compute. intros e [<- | [<- | []]]; reflexivity.
Defined.
